(** * Realsense-Multicam-Python: edge_computer/main.cpp

    A shallow embedding of the capture driver [src/edge_computer/main.cpp]
    and the properties of its orchestration logic.

    The driver is a thin client of two libraries whose code is not part of
    the repository (librealsense2 and stb_image_write).  Their operations
    are taken as fields of an [environment] record; everything the driver
    itself does (argument parsing, warm-up, capture loop, thread fan-out,
    filter-chain order, file naming, metadata formatting, exception
    handling) is translated from the source. *)

From Stdlib Require Import String Ascii ZArith NArith QArith List Lia.
From Stdlib Require Import Sorted Permutation DecimalString DecimalN DecimalZ.
From stdpp Require Import gmap strings.
Import ListNotations.

Open Scope string_scope.
Open Scope list_scope.
Open Scope Z_scope.

(** ** Platform constants *)

(** [int] is 32 bits wide on every platform librealsense2 supports. *)
Definition INT_MAX : Z := 2147483647.

Definition EXIT_SUCCESS : Z := 0.
Definition EXIT_FAILURE : Z := 1.

(** ** Text formatting ([operator<<] on a stream in the default state) *)

(** [os << n] for [unsigned long long]: decimal digits, no padding. *)
Definition dec_unsigned (n : N) : string :=
  NilEmpty.string_of_uint (N.to_uint n).

(** [os << v] for [long long]: decimal digits with a leading minus sign
    for negative values. *)
Definition dec_signed (v : Z) : string :=
  NilZero.string_of_int (Z.to_int v).

(** [std::endl] writes a newline (and flushes). *)
Definition endl : string := String "010"%char EmptyString.

(** ** [strtol(s, &end, 10)] in the "C" locale

    Only the returned value is modelled: [main] passes [&output] but never
    reads it back, and never inspects [errno]. *)

Definition isspace (c : ascii) : bool :=
  let n := nat_of_ascii c in
  ((9 <=? n)%nat && (n <=? 13)%nat) || (n =? 32)%nat.

Definition digit_value (c : ascii) : option Z :=
  let n := Z.of_nat (nat_of_ascii c) in
  if (48 <=? n) && (n <=? 57) then Some (n - 48) else None.

Fixpoint skip_spaces (s : string) : string :=
  match s with
  | String c rest => if isspace c then skip_spaces rest else s
  | EmptyString => s
  end.

(** Accumulate the longest prefix of decimal digits. *)
Fixpoint digits_value (acc : Z) (s : string) : Z :=
  match s with
  | String c rest =>
      match digit_value c with
      | Some d => digits_value (10 * acc + d) rest
      | None => acc
      end
  | EmptyString => acc
  end.

Definition split_sign (s : string) : bool * string :=
  match s with
  | String "-"%char rest => (true, rest)
  | String "+"%char rest => (false, rest)
  | _ => (false, s)
  end.

(** The result saturates at [LONG_MIN] / [LONG_MAX]; when no digit can be
    converted the result is [0]. *)
Definition strtol (LONG_MAX : Z) (s : string) : Z :=
  let (negative, body) := split_sign (skip_spaces s) in
  let magnitude := digits_value 0 body in
  if negative then Z.max (- magnitude) (- LONG_MAX - 1)
  else Z.min magnitude LONG_MAX.

(** ** SDK data model (declarations of [librealsense2/rs.hpp]) *)

Inductive rs2_stream :=
| RS2_STREAM_DEPTH
| RS2_STREAM_COLOR
| RS2_STREAM_OTHER (id : nat).

Inductive rs2_format := RS2_FORMAT_Z16 | RS2_FORMAT_RGB8.

(** The attributes [rs2::video_frame] adds to a frame. *)
Record video_frame := {
  get_width : Z;
  get_height : Z;
  get_bytes_per_pixel : Z;
  get_stride_in_bytes : Z;
  get_data : string
}.

(** An [rs2::frame] handle.  [as_video_frame] is [frm.as<rs2::video_frame>()]:
    [None] when the cast yields an empty handle.  [frame_metadata i] is
    [Some v] exactly when the frame supports metadata attribute [i]. *)
Record frame := {
  get_frame_number : N;
  stream_type : rs2_stream;
  as_video_frame : option video_frame;
  frame_metadata : nat -> option Z
}.

(** An [rs2::frameset], reduced to the two frames [main] extracts. *)
Record frameset := {
  get_depth_frame : frame;
  get_color_frame : frame
}.

(** Exceptions that reach [main]'s handlers or escape a thread. *)
Inductive exn :=
| rs2_error (get_failed_function get_failed_args what : string)
| std_exception (what : string).

(** Options and processing blocks used by the depth path. *)
Inductive rs2_option :=
| RS2_OPTION_FILTER_MAGNITUDE
| RS2_OPTION_FILTER_SMOOTH_ALPHA
| RS2_OPTION_FILTER_SMOOTH_DELTA
| RS2_OPTION_HOLES_FILL.

Inductive block_kind :=
| decimation_filter
| spatial_filter
| disparity_transform (transform_to_disparity : bool).

Record processing_block := {
  block : block_kind;
  get_option : rs2_option -> option Q
}.

Definition rs2_option_eqb (a b : rs2_option) : bool :=
  match a, b with
  | RS2_OPTION_FILTER_MAGNITUDE, RS2_OPTION_FILTER_MAGNITUDE
  | RS2_OPTION_FILTER_SMOOTH_ALPHA, RS2_OPTION_FILTER_SMOOTH_ALPHA
  | RS2_OPTION_FILTER_SMOOTH_DELTA, RS2_OPTION_FILTER_SMOOTH_DELTA
  | RS2_OPTION_HOLES_FILL, RS2_OPTION_HOLES_FILL => true
  | _, _ => false
  end.

(** [blk.set_option(opt, value)] *)
Definition set_option (blk : processing_block) (opt : rs2_option) (value : Q)
  : processing_block :=
  {| block := block blk;
     get_option := fun o => if rs2_option_eqb o opt then Some value
                            else get_option blk o |}.

(** A stream request recorded by [cfg.enable_stream]. *)
Record stream_request := {
  req_stream : rs2_stream;
  req_width : Z;
  req_height : Z;
  req_format : rs2_format;
  req_fps : Z
}.

(** The SDK calls [main] makes on its own thread.  [call_wait_for_frames k]
    is the [k]-th call (counting from 0) of [pipe.wait_for_frames()]. *)
Inductive sdk_call :=
| call_context                                      (* [rs2::context ctx] *)
| call_query_devices                                (* [ctx.query_devices()] *)
| call_config                                       (* [rs2::config cfg] *)
| call_enable_stream (r : stream_request)           (* [cfg.enable_stream(...)] *)
| call_pipeline                                     (* [rs2::pipeline pipe] *)
| call_pipeline_start (cfg : list stream_request)   (* [pipe.start(cfg)] *)
| call_wait_for_frames (k : nat).                   (* [pipe.wait_for_frames()] *)

(** ** The environment: platform, libraries and attached hardware

    Everything [main.cpp] obtains from outside its own text. *)
Record environment := {
  (** width of [long] on the target *)
  LONG_MAX : Z;
  (** [Some e] when the SDK raises [e] from that call *)
  sdk_fault : sdk_call -> option exn;
  (** [ctx.query_devices().size()] *)
  device_count : N;
  (** the frameset the [k]-th successful wait delivers *)
  frameset_at : nat -> frameset;
  (** options of a freshly constructed block *)
  default_options : block_kind -> rs2_option -> option Q;
  (** [blk.process(frame)]: a new frame, or an SDK exception *)
  process : processing_block -> frame -> exn + frame;
  (** the metadata enumeration of [rs_frame.h] *)
  RS2_FRAME_METADATA_COUNT : nat;
  rs2_frame_metadata_to_string : nat -> string;
  rs2_stream_to_string : rs2_stream -> string;
  (** the bytes [stbi_write_png] stores for (w, h, comp, data, stride) *)
  stbi_png_encode : Z -> Z -> Z -> string -> Z -> string;
  (** what the C++ runtime's terminate handler sends to the standard error
      stream before it aborts the process: [None] when [std::terminate] is
      called without an active exception, [Some e] when [e] escaped a
      thread *)
  terminate_text : option exn -> string;
  (** [what()] of the [std::logic_error] that libstdc++ throws when a
      [std::string] is constructed from a null pointer *)
  null_string_what : string
}.

(** ** Computations

    A computation threads a state and ends in one of four ways. *)

Inductive undefined_behaviour :=
| null_argv (index : nat)     (* argv[index] read beyond the supplied arguments *)
| signed_overflow.            (* [++i] on an [int] holding [INT_MAX] *)

Inductive res (A : Type) :=
| Val (a : A)                        (* normal completion *)
| Throw (e : exn)                    (* a C++ exception is propagating *)
| Undef (u : undefined_behaviour)    (* behaviour undefined by the standard *)
| Terminate (cause : option exn).    (* [std::terminate] was called, with
                                       the exception that is active, if
                                       one is *)
Arguments Val {A} a.
Arguments Throw {A} e.
Arguments Undef {A} u.
Arguments Terminate {A} cause.

Definition M (S A : Type) : Type := S -> res A * S.

Definition ret {S A} (a : A) : M S A := fun s => (Val a, s).

Definition bind {S A B} (m : M S A) (k : A -> M S B) : M S B :=
  fun s =>
    match m s with
    | (Val a, s') => k a s'
    | (Throw e, s') => (Throw e, s')
    | (Undef u, s') => (Undef u, s')
    | (Terminate cause, s') => (Terminate cause, s')
    end.

Definition throw {S A} (e : exn) : M S A := fun s => (Throw e, s).
Definition undef {S A} (u : undefined_behaviour) : M S A := fun s => (Undef u, s).
Definition modify {S} (f : S -> S) : M S unit := fun s => (Val tt, f s).

Notation "x <- m ;; k" := (bind m (fun x => k))
  (at level 100, m at next level, right associativity).
Notation "m ;;; k" := (bind m (fun _ => k))
  (at level 100, right associativity).

(** ** Observable effects of a worker thread *)

(** [FileWrite path content] stands for opening [path] for writing,
    sending [content] and closing.  The source never looks at the state of
    a stream or at the result of [stbi_write_png], so what a thread does
    is the same whether or not the directory accepts the file. *)
Inductive effect :=
| FileWrite (path content : string)
| Cout (text : string).               (* text sent to [std::cout] *)

Definition emit (e : effect) : M (list effect) unit :=
  modify (fun log => log ++ [e]).

(** ** [metadata_to_text] (main.cpp, lines 20-39) *)

Definition supports_frame_metadata (frm : frame) (i : nat) : bool :=
  match frame_metadata frm i with Some _ => true | None => false end.

(** The SDK raises an error when asked for an attribute the frame lacks
    (the loop below only asks for supported ones). *)
Definition get_frame_metadata {S} (frm : frame) (i : nat) : M S Z :=
  match frame_metadata frm i with
  | Some v => ret v
  | None => throw (rs2_error "rs2_get_frame_metadata" "" "metadata not available")
  end.

(** [text_metadata_file << text]: the state is the content of the stream. *)
Definition ofstream_put (text : string) : M string unit :=
  modify (fun buf => buf +:+ text).

(** [for (size_t i = 0; i < RS2_FRAME_METADATA_COUNT; i++)], entered with
    [remaining = RS2_FRAME_METADATA_COUNT - i]. *)
Fixpoint metadata_loop (env : environment) (frm : frame)
    (remaining i : nat) : M string unit :=
  match remaining with
  | O => ret tt
  | S remaining' =>
      (if supports_frame_metadata frm i then
         v <- get_frame_metadata frm i ;;
         ofstream_put (rs2_frame_metadata_to_string env i +:+ ","
                       +:+ dec_signed v +:+ endl)
       else ret tt) ;;;
      metadata_loop env frm remaining' (S i)
  end.

Definition metadata_header (env : environment) (frm : frame) : string :=
  "Stream," +:+ rs2_stream_to_string env (stream_type frm) +:+ endl
  +:+ "Metadata Attribute,Value" +:+ endl.

(** The file receives whatever the stream holds when it is closed. *)
Definition metadata_to_text (env : environment) (frm : frame)
    (file_name : string) : M (list effect) unit :=
  fun log =>
    let (r, buf) := metadata_loop env frm (RS2_FRAME_METADATA_COUNT env) 0%nat
                      (metadata_header env frm) in
    (r, log ++ [FileWrite file_name buf]).

(** ** [save_frame_depth_data] (main.cpp, lines 42-80) *)

Definition new_block (env : environment) (k : block_kind) : processing_block :=
  {| block := k; get_option := default_options env k |}.

Definition process_frame {S} (env : environment) (blk : processing_block)
    (frm : frame) : M S frame :=
  match process env blk frm with
  | inl e => throw e
  | inr frm' => ret frm'
  end.

Definition depth_file_name (pi_name : string) (n : N) : string :=
  "depth/" +:+ pi_name +:+ "_depth_" +:+ dec_unsigned n +:+ ".raw".

Definition depth_metadata_file_name (pi_name : string) (n : N) : string :=
  "depth_metadata/" +:+ pi_name +:+ "_depth_metadata_" +:+ dec_unsigned n +:+ ".txt".

(** The value an [int] holds after an operation whose mathematical result
    is [z].  Within [INT_MIN .. INT_MAX] it is [z]; outside, the operation
    overflows (undefined by the standard) and what is given here is the
    two's-complement result the build computes. *)
Definition int_wrap (z : Z) : Z := (z + 2 ^ 31) mod 2 ^ 32 - 2 ^ 31.

(** [a * b] on two [int]s. *)
Definition int_mul (a b : Z) : Z := int_wrap (a * b).

(** [outfile.write(data, width * height * bytes_per_pixel)]: the count is
    the [int] product of the three [int]s, converted to [std::streamsize];
    nothing is written for a count that is not positive. *)
Definition raw_pixels (image : video_frame) : string :=
  substring 0
    (Z.to_nat (int_mul (int_mul (get_width image) (get_height image))
                 (get_bytes_per_pixel image)))
    (get_data image).

(** The four filters as [save_frame_depth_data] creates and configures
    them (lines 45-52). *)
Definition dec_filter (env : environment) : processing_block :=
  set_option (new_block env decimation_filter) RS2_OPTION_FILTER_MAGNITUDE 3%Q.

Definition spat_filter (env : environment) : processing_block :=
  set_option (new_block env spatial_filter) RS2_OPTION_FILTER_SMOOTH_ALPHA 0.6%Q.

Definition depth_to_disparity (env : environment) : processing_block :=
  new_block env (disparity_transform true).

Definition disparity_to_depth (env : environment) : processing_block :=
  new_block env (disparity_transform false).

Definition save_frame_depth_data (env : environment) (pi_name : string)
    (frm : frame) : M (list effect) unit :=
  (* Filter depth frame *)
  frm <- process_frame env (dec_filter env) frm ;;
  frm <- process_frame env (depth_to_disparity env) frm ;;
  frm <- process_frame env (spat_filter env) frm ;;
  frm <- process_frame env (disparity_to_depth env) frm ;;
  (* We can only save video frames, so we skip the rest *)
  match as_video_frame frm with
  | Some image =>
      let file_name := depth_file_name pi_name (get_frame_number frm) in
      emit (FileWrite file_name (raw_pixels image)) ;;;
      emit (Cout ("Saved " +:+ file_name +:+ endl)) ;;;
      metadata_to_text env frm
        (depth_metadata_file_name pi_name (get_frame_number frm))
  | None => ret tt
  end.

(** ** [save_frame_color_data] (main.cpp, lines 83-105) *)

Definition colour_file_name (pi_name : string) (n : N) : string :=
  "colour/" +:+ pi_name +:+ "_colour_" +:+ dec_unsigned n +:+ ".png".

Definition colour_metadata_file_name (pi_name : string) (n : N) : string :=
  "colour_metadata/" +:+ pi_name +:+ "_colour_metadata_" +:+ dec_unsigned n +:+ ".txt".

Definition save_frame_color_data (env : environment) (pi_name : string)
    (frm : frame) : M (list effect) unit :=
  match as_video_frame frm with
  | Some image =>
      let png_colour_file := colour_file_name pi_name (get_frame_number frm) in
      emit (FileWrite png_colour_file
              (stbi_png_encode env (get_width image) (get_height image)
                 (get_bytes_per_pixel image) (get_data image)
                 (get_stride_in_bytes image))) ;;;
      emit (Cout ("Saved " +:+ png_colour_file +:+ endl)) ;;;
      metadata_to_text env frm
        (colour_metadata_file_name pi_name (get_frame_number frm))
  | None => ret tt
  end.

(** ** Threads

    [std::thread(f, pi_name, frame)]: the entry point and the copies of its
    two arguments. *)

Inductive thread_function := fn_save_frame_depth_data | fn_save_frame_color_data.

Record thread := {
  thread_entry : thread_function;
  thread_pi_name : string;
  thread_frame : frame
}.

(** What a thread does from start to end, on its own log. *)
Definition run_thread (env : environment) (t : thread) : res unit * list effect :=
  match thread_entry t with
  | fn_save_frame_depth_data =>
      save_frame_depth_data env (thread_pi_name t) (thread_frame t) []
  | fn_save_frame_color_data =>
      save_frame_color_data env (thread_pi_name t) (thread_frame t) []
  end.

Definition thread_log (env : environment) (t : thread) : list effect :=
  snd (run_thread env t).

(** ** The main thread *)

Record process_state := {
  sdk_trace : list sdk_call;      (* SDK calls made so far, oldest first *)
  frames_delivered : nat;         (* framesets handed out by the pipeline *)
  cerr : string;                  (* text sent to [std::cerr] *)
  threads : list thread           (* [std::vector<std::thread> threads] *)
}.

Definition initial_state : process_state :=
  {| sdk_trace := []; frames_delivered := 0; cerr := ""; threads := [] |}.

Definition log_call (c : sdk_call) (st : process_state) : process_state :=
  {| sdk_trace := sdk_trace st ++ [c];
     frames_delivered := frames_delivered st;
     cerr := cerr st;
     threads := threads st |}.

Definition frame_delivered (st : process_state) : process_state :=
  {| sdk_trace := sdk_trace st;
     frames_delivered := S (frames_delivered st);
     cerr := cerr st;
     threads := threads st |}.

Definition cerr_append (text : string) (st : process_state) : process_state :=
  {| sdk_trace := sdk_trace st;
     frames_delivered := frames_delivered st;
     cerr := cerr st +:+ text;
     threads := threads st |}.

Definition thread_started (t : thread) (st : process_state) : process_state :=
  {| sdk_trace := sdk_trace st;
     frames_delivered := frames_delivered st;
     cerr := cerr st;
     threads := threads st ++ [t] |}.

(** An SDK call: recorded, then either completes or raises. *)
Definition sdk (env : environment) (c : sdk_call) : M process_state unit :=
  fun st =>
    match sdk_fault env c with
    | Some e => (Throw e, log_call c st)
    | None => (Val tt, log_call c st)
    end.

(** [cfg.enable_stream(stream, width, height, format, fps)] *)
Definition enable_stream (env : environment) (cfg : list stream_request)
    (r : stream_request) : M process_state (list stream_request) :=
  sdk env (call_enable_stream r) ;;; ret (cfg ++ [r]).

(** [pipe.wait_for_frames()] *)
Definition wait_for_frames (env : environment) : M process_state frameset :=
  fun st =>
    let k := frames_delivered st in
    (sdk env (call_wait_for_frames k) ;;;
     modify frame_delivered ;;;
     ret (frameset_at env k)) st.

(** [argv[index]] handed to a C function that reads the string
    ([strtol]).  [argv] holds the [argc] strings the process was started
    with; [argv[argc]] is a null pointer and anything beyond it is outside
    the array: reading a string there is undefined. *)
Definition argv_read {S} (argv : list string) (index : nat) : M S string :=
  match nth_error argv index with
  | Some s => ret s
  | None => undef (null_argv index)
  end.

(** [std::string name = argv[index]].  For the null pointer [argv[argc]]
    the constructor of libstdc++ (the library of the g++ builds this
    program is made for) throws [std::logic_error]; the standard leaves
    the case undefined.  Beyond [argv[argc]] the read itself is outside
    the array. *)
Definition std_string_from_argv {S} (env : environment) (argv : list string)
    (index : nat) : M S string :=
  match nth_error argv index with
  | Some s => ret s
  | None =>
      if (index =? length argv)%nat
      then throw (std_exception (null_string_what env))
      else undef (null_argv index)
  end.

(** [threads.emplace_back(f, pi_name, frame)] *)
Definition emplace_back (f : thread_function) (pi_name : string) (frm : frame)
  : M process_state unit :=
  modify (thread_started
            {| thread_entry := f; thread_pi_name := pi_name; thread_frame := frm |}).

(** [for (auto i = 0; i < bound; ++i) body], entered with the current value
    of the [int] counter [i].  [fuel] bounds the number of iterations that
    are unfolded; [Z.to_nat (bound - i)] is always enough
    (see [for_int_fuel]). *)
Fixpoint for_int {S} (fuel : nat) (i bound : Z) (body : M S unit) : M S unit :=
  match fuel with
  | O => ret tt
  | S fuel' =>
      if i <? bound then
        body ;;;
        if i =? INT_MAX then undef signed_overflow
        else for_int fuel' (i + 1) bound body
      else ret tt
  end.

(** [t.join()] returns once the thread has ended.  An exception that
    escapes a thread's entry function calls [std::terminate] with that
    exception active.

    The process dies when the thread raises, which can be at any moment
    between the creation of the thread and its join.  The state given
    for such a run is the one in which the main thread has got as far as
    it can, and the exception is that of the first raising thread in
    creation order; a run can die earlier, and on the exception of
    another raising thread.  What is stated below of a run aborted by a
    thread is therefore only its outcome and that the report on the error
    stream is that of one of the raising threads. *)
Fixpoint join_all (env : environment) (ts : list thread) : M process_state unit :=
  match ts with
  | [] => ret tt
  | t :: rest =>
      match fst (run_thread env t) with
      | Val _ => join_all env rest
      | Throw e => fun st => (Terminate (Some e), st)
      | Undef u => fun st => (Undef u, st)
      | Terminate cause => fun st => (Terminate cause, st)
      end
  end.

Definition depth_request : stream_request :=
  {| req_stream := RS2_STREAM_DEPTH; req_width := 1280; req_height := 720;
     req_format := RS2_FORMAT_Z16; req_fps := 15 |}.

Definition color_request : stream_request :=
  {| req_stream := RS2_STREAM_COLOR; req_width := 424; req_height := 240;
     req_format := RS2_FORMAT_RGB8; req_fps := 15 |}.

(** One iteration of the capture loop (main.cpp, lines 142-146). *)
Definition capture_one (env : environment) (raspi_name : string)
  : M process_state unit :=
  data <- wait_for_frames env ;;
  emplace_back fn_save_frame_depth_data raspi_name (get_depth_frame data) ;;;
  emplace_back fn_save_frame_color_data raspi_name (get_color_frame data).

(** The try block of [main] from the point where the pipeline has been
    started (main.cpp, lines 128-156). *)
Definition main_after_start (env : environment) (argv : list string)
  : M process_state Z :=
  (* Get the number of frames from user *)
  arg1 <- argv_read argv 1 ;;
  let num_frames := strtol (LONG_MAX env) arg1 in
  (* Store the raspberry pi name for file name purposes *)
  raspi_name <- std_string_from_argv env argv 2 ;;
  (* Capture 30 frames to give autoexposure, etc. a chance to settle *)
  for_int 30 0 30 (wait_for_frames env ;;; ret tt) ;;;
  (* Create a vector to store threads *)
  for_int (Z.to_nat num_frames) 0 num_frames (capture_one env raspi_name) ;;;
  (* Ensure all threads are done before terminating program *)
  (fun st => join_all env (threads st) st) ;;;
  ret EXIT_SUCCESS.

(** The body of [main]'s function-try-block (main.cpp, lines 109-157). *)
Definition main_body (env : environment) (argv : list string)
  : M process_state Z :=
  (* Check for connected realsense camera *)
  sdk env call_context ;;;
  sdk env call_query_devices ;;;
  if (device_count env =? 0)%N then
    modify (cerr_append ("No RealSense devices found!" +:+ endl)) ;;;
    ret EXIT_FAILURE
  else
    (* Configure the streams *)
    sdk env call_config ;;;
    cfg <- enable_stream env [] depth_request ;;
    cfg <- enable_stream env cfg color_request ;;
    (* Create pipe and start it *)
    sdk env call_pipeline ;;;
    sdk env (call_pipeline_start cfg) ;;;
    main_after_start env argv.

(** How the process ends. *)
Inductive outcome :=
| Exit (code : Z)                           (* [main] returned [code] *)
| Aborted                                   (* [std::terminate] *)
| Undefined (u : undefined_behaviour).

(** The text a handler of [main] sends to [std::cerr]. *)
Definition handler_message (e : exn) : string :=
  match e with
  | rs2_error failed_function failed_args what =>
      "RealSense error calling " +:+ failed_function +:+ "(" +:+ failed_args
      +:+ "):" +:+ endl +:+ "    " +:+ what +:+ endl
  | std_exception what => what +:+ endl
  end.

(** [main]: the try block and its two handlers.

    When an exception leaves the try block, the automatic objects of the
    block are destroyed before a handler is entered.  Every [std::thread]
    held by [threads] is still joinable at that point (joins happen only
    after the capture loop), and the destructor of a joinable
    [std::thread] calls [std::terminate]: the handlers are reached only
    when no thread has been created yet.  [std::terminate] is then called
    from a destructor, without an active exception as far as its handler
    can tell.  However [std::terminate] comes to be called, its handler
    reports on the standard error stream before it aborts the process. *)
Definition main (env : environment) (argv : list string)
  : outcome * process_state :=
  match main_body env argv initial_state with
  | (Val code, st) => (Exit code, st)
  | (Throw e, st) =>
      match threads st with
      | [] => (Exit EXIT_FAILURE, cerr_append (handler_message e) st)
      | _ :: _ => (Aborted, cerr_append (terminate_text env None) st)
      end
  | (Undef u, st) => (Undefined u, st)
  | (Terminate cause, st) => (Aborted, cerr_append (terminate_text env cause) st)
  end.

(** ** Observations on a finished run *)

(** The effects the threads of a run have when each of them runs to its
    end, thread by thread in creation order.  A run that returns from
    [main] has joined all its threads, so its effects are these, in some
    interleaving: the threads run concurrently and the order in which
    their effects really happen is not fixed.  A run that is aborted has
    cut its threads short and leaves only a part of these effects.  What
    is stated about this list is therefore stated either of runs that
    return and up to the order of the list, or as a bound on what any part
    of it can contain. *)
Definition run_effects (env : environment) (st : process_state) : list effect :=
  concat (map (thread_log env) (threads st)).

Fixpoint file_writes (log : list effect) : list (string * string) :=
  match log with
  | [] => []
  | FileWrite p c :: rest => (p, c) :: file_writes rest
  | Cout _ :: rest => file_writes rest
  end.

(** Files written into a directory, by path prefix. *)
Definition written_under (dir : string) (log : list effect) : list (string * string) :=
  List.filter (fun pc => String.prefix dir (fst pc)) (file_writes log).

(** ** A simulated device, for running the model on concrete inputs *)

Module Sim.

(** A one-row image holding [pixels], one byte per pixel. *)
Definition image_of (pixels : string) : video_frame :=
  {| get_width := Z.of_nat (String.length pixels);
     get_height := 1;
     get_bytes_per_pixel := 1;
     get_stride_in_bytes := Z.of_nat (String.length pixels);
     get_data := pixels |}.

(** Attributes 1 and 3 out of 5 are supported. *)
Definition metadata_of (n : N) (i : nat) : option Z :=
  match i with
  | 1%nat => Some (Z.of_N n * 10)
  | 3%nat => Some (-4)
  | _ => None
  end.

Definition video (s : rs2_stream) (n : N) (pixels : string) : frame :=
  {| get_frame_number := n; stream_type := s;
     as_video_frame := Some (image_of pixels);
     frame_metadata := metadata_of n |}.

(** A frame that is not image-shaped (e.g. a motion or pose frame). *)
Definition non_video (s : rs2_stream) (n : N) : frame :=
  {| get_frame_number := n; stream_type := s;
     as_video_frame := None;
     frame_metadata := metadata_of n |}.

Definition option_is (blk : processing_block) (o : rs2_option) (q : Q) : bool :=
  match get_option blk o with
  | Some v => Qeq_bool v q
  | None => false
  end.

(** Each block leaves a one-byte mark on the pixels, so that the stored
    file shows which blocks ran, with which options, in which order. *)
Definition mark (blk : processing_block) : string :=
  match block blk with
  | decimation_filter =>
      if option_is blk RS2_OPTION_FILTER_MAGNITUDE 3%Q then "D" else "d"
  | spatial_filter =>
      if option_is blk RS2_OPTION_FILTER_SMOOTH_ALPHA 0.6%Q
         && option_is blk RS2_OPTION_FILTER_SMOOTH_DELTA 20%Q
      then "S" else "s"
  | disparity_transform true => ">"
  | disparity_transform false => "<"
  end.

Definition run_block (blk : processing_block) (frm : frame) : exn + frame :=
  inr {| get_frame_number := get_frame_number frm;
         stream_type := stream_type frm;
         as_video_frame :=
           match as_video_frame frm with
           | Some image => Some (image_of (get_data image +:+ mark blk))
           | None => None
           end;
         frame_metadata := frame_metadata frm |}.

Definition factory_options (k : block_kind) (o : rs2_option) : option Q :=
  match k, o with
  | decimation_filter, RS2_OPTION_FILTER_MAGNITUDE => Some 2%Q
  | spatial_filter, RS2_OPTION_FILTER_MAGNITUDE => Some 2%Q
  | spatial_filter, RS2_OPTION_FILTER_SMOOTH_ALPHA => Some 0.5%Q
  | spatial_filter, RS2_OPTION_FILTER_SMOOTH_DELTA => Some 20%Q
  | spatial_filter, RS2_OPTION_HOLES_FILL => Some 0%Q
  | _, _ => None
  end.

Definition metadata_name (i : nat) : string :=
  match i with
  | 0%nat => "Frame Counter"
  | 1%nat => "Frame Timestamp"
  | 2%nat => "Sensor Timestamp"
  | 3%nat => "Actual Exposure"
  | _ => "Gain Level"
  end.

Definition stream_name (s : rs2_stream) : string :=
  match s with
  | RS2_STREAM_DEPTH => "Depth"
  | RS2_STREAM_COLOR => "Color"
  | RS2_STREAM_OTHER _ => "Any"
  end.

(** The [k]-th frameset: depth frame number [k], colour frame number
    [100 + k]. *)
Definition numbered_frameset (k : nat) : frameset :=
  {| get_depth_frame := video RS2_STREAM_DEPTH (N.of_nat k) "zz";
     get_color_frame := video RS2_STREAM_COLOR (100 + N.of_nat k) "rgb" |}.

(** The messages of libstdc++. *)
Definition terminate_handler (cause : option exn) : string :=
  match cause with
  | None => "terminate called without an active exception" +:+ endl
  | Some (rs2_error _ _ what) =>
      "terminate called after throwing an instance of 'rs2::error'" +:+ endl
      +:+ "  what():  " +:+ what +:+ endl
  | Some (std_exception what) =>
      "terminate called after throwing an instance of 'std::exception'" +:+ endl
      +:+ "  what():  " +:+ what +:+ endl
  end.

Definition construction_from_null : string :=
  "basic_string: construction from null is not valid".

(** A device on an LP64 platform: [faults] says which SDK calls raise,
    [framesets] what the pipeline delivers. *)
Definition device (faults : sdk_call -> option exn)
    (framesets : nat -> frameset) : environment :=
  {| LONG_MAX := 2 ^ 63 - 1;
     sdk_fault := faults;
     device_count := 1;
     frameset_at := framesets;
     default_options := factory_options;
     process := run_block;
     RS2_FRAME_METADATA_COUNT := 5;
     rs2_frame_metadata_to_string := metadata_name;
     rs2_stream_to_string := stream_name;
     stbi_png_encode := fun _ _ _ data _ => "PNG:" +:+ data;
     terminate_text := terminate_handler;
     null_string_what := construction_from_null |}.

Definition healthy : environment := device (fun _ => None) numbered_frameset.

(** As [numbered_frameset], but the depth frame at position 31 is not
    an image. *)
Definition odd_frameset (k : nat) : frameset :=
  match k with
  | 31%nat => {| get_depth_frame := non_video RS2_STREAM_DEPTH 31;
                 get_color_frame := video RS2_STREAM_COLOR 131 "rgb" |}
  | _ => numbered_frameset k
  end.

(** The wait at position [k] times out. *)
Definition timeout_at (k : nat) (c : sdk_call) : option exn :=
  match c with
  | call_wait_for_frames j =>
      if (j =? k)%nat
      then Some (rs2_error "rs2_pipeline_wait_for_frames"
                   "pipe:0x55, timeout_ms:15000"
                   "Frame didn't arrive within 15000")
      else None
  | _ => None
  end.

(** No camera is plugged in. *)
Definition unplugged : environment :=
  {| LONG_MAX := 2 ^ 63 - 1;
     sdk_fault := fun _ => None;
     device_count := 0;
     frameset_at := numbered_frameset;
     default_options := factory_options;
     process := run_block;
     RS2_FRAME_METADATA_COUNT := 5;
     rs2_frame_metadata_to_string := metadata_name;
     rs2_stream_to_string := stream_name;
     stbi_png_encode := fun _ _ _ data _ => "PNG:" +:+ data;
     terminate_text := terminate_handler;
     null_string_what := construction_from_null |}.

(** A device whose processing blocks, like the real ones, refuse a frame
    that is not an image. *)
Definition strict_block (blk : processing_block) (frm : frame) : exn + frame :=
  match as_video_frame frm with
  | Some _ => run_block blk frm
  | None => inl (rs2_error "rs2_process_frame" "block:0x77, frame:0x0"
                   "null pointer passed for argument frame")
  end.

Definition strict (framesets : nat -> frameset) : environment :=
  {| LONG_MAX := 2 ^ 63 - 1;
     sdk_fault := fun _ => None;
     device_count := 1;
     frameset_at := framesets;
     default_options := factory_options;
     process := strict_block;
     RS2_FRAME_METADATA_COUNT := 5;
     rs2_frame_metadata_to_string := metadata_name;
     rs2_stream_to_string := stream_name;
     stbi_png_encode := fun _ _ _ data _ => "PNG:" +:+ data;
     terminate_text := terminate_handler;
     null_string_what := construction_from_null |}.

End Sim.

(** ** The filter chain and the metadata text, as the specification words them *)

Definition sum_bind {E A B} (x : E + A) (k : A -> E + B) : E + B :=
  match x with
  | inl e => inl e
  | inr a => k a
  end.

(** Decimate, convert to disparity, smooth, convert back to depth. *)
Definition spec_filter_chain (env : environment) (frm : frame) : exn + frame :=
  sum_bind (process env (dec_filter env) frm) (fun decimated =>
  sum_bind (process env (depth_to_disparity env) decimated) (fun disparity =>
  sum_bind (process env (spat_filter env) disparity) (fun smoothed =>
  process env (disparity_to_depth env) smoothed))).

(** One CSV line per supported attribute kind, in enumeration order. *)
Definition metadata_value (frm : frame) (i : nat) : Z :=
  match frame_metadata frm i with Some v => v | None => 0 end.

Definition spec_metadata_line (env : environment) (frm : frame) (i : nat) : string :=
  rs2_frame_metadata_to_string env i +:+ "," +:+ dec_signed (metadata_value frm i)
  +:+ endl.

Definition spec_metadata_lines (env : environment) (frm : frame) : list string :=
  map (spec_metadata_line env frm)
    (List.filter (supports_frame_metadata frm)
       (seq 0 (RS2_FRAME_METADATA_COUNT env))).

Definition spec_metadata_text (env : environment) (frm : frame) : string :=
  "Stream," +:+ rs2_stream_to_string env (stream_type frm) +:+ endl
  +:+ "Metadata Attribute,Value" +:+ endl
  +:+ fold_right String.append "" (spec_metadata_lines env frm).

(** What the depth path does with a filtered frame, and the colour path
    with a colour frame. *)
Definition spec_depth_effects (env : environment) (pi_name : string) (frm : frame)
  : list effect :=
  match as_video_frame frm with
  | Some image =>
      [FileWrite (depth_file_name pi_name (get_frame_number frm)) (raw_pixels image);
       Cout ("Saved " +:+ depth_file_name pi_name (get_frame_number frm) +:+ endl);
       FileWrite (depth_metadata_file_name pi_name (get_frame_number frm))
         (spec_metadata_text env frm)]
  | None => []
  end.

Definition spec_colour_effects (env : environment) (pi_name : string) (frm : frame)
  : list effect :=
  match as_video_frame frm with
  | Some image =>
      [FileWrite (colour_file_name pi_name (get_frame_number frm))
         (stbi_png_encode env (get_width image) (get_height image)
            (get_bytes_per_pixel image) (get_data image) (get_stride_in_bytes image));
       Cout ("Saved " +:+ colour_file_name pi_name (get_frame_number frm) +:+ endl);
       FileWrite (colour_metadata_file_name pi_name (get_frame_number frm))
         (spec_metadata_text env frm)]
  | None => []
  end.

(** ** Runs: vocabulary for the statements *)

(** The two threads the capture loop creates for one frameset. *)
Definition threads_of_frameset (pi_name : string) (data : frameset) : list thread :=
  [ {| thread_entry := fn_save_frame_depth_data; thread_pi_name := pi_name;
       thread_frame := get_depth_frame data |};
    {| thread_entry := fn_save_frame_color_data; thread_pi_name := pi_name;
       thread_frame := get_color_frame data |} ].

(** The threads created for the framesets delivered at positions [ks]. *)
Definition spawned (env : environment) (pi_name : string) (ks : list nat)
  : list thread :=
  flat_map (fun k => threads_of_frameset pi_name (frameset_at env k)) ks.

Definition setup_calls : list sdk_call :=
  [call_context; call_query_devices; call_config;
   call_enable_stream depth_request; call_enable_stream color_request;
   call_pipeline; call_pipeline_start [depth_request; color_request]].

(** The state of the process once [pipe.start] has returned. *)
Definition started_state : process_state :=
  {| sdk_trace := setup_calls; frames_delivered := 0; cerr := ""; threads := [] |}.

(** The state in which [main] returns when no device is attached. *)
Definition no_device_state : process_state :=
  {| sdk_trace := [call_context; call_query_devices];
     frames_delivered := 0;
     cerr := "No RealSense devices found!" +:+ endl;
     threads := [] |}.

(** A run is treated as an error when it does not end with status 0 or
    says something on [std::cerr]. *)
Definition reports_error (run : outcome * process_state) : Prop :=
  fst run <> Exit EXIT_SUCCESS \/ cerr (snd run) <> "".

(** The SDK calls up to and including [pipe.start] raise nothing. *)
Definition setup_succeeds (env : environment) : Prop :=
  forall c, In c setup_calls -> sdk_fault env c = None.

(** A device is attached, the pipeline starts, and the first [framesets]
    waits each deliver a frameset. *)
Definition reachable (env : environment) (framesets : nat) : Prop :=
  device_count env <> 0%N /\
  setup_succeeds env /\
  forall k, (k < framesets)%nat -> sdk_fault env (call_wait_for_frames k) = None.

(** The frameset's depth frame leaves the filter chain as something that
    is not an image. *)
Definition depth_not_image (env : environment) (data : frameset) : bool :=
  match spec_filter_chain env (get_depth_frame data) with
  | inr filtered =>
      match as_video_frame filtered with Some _ => false | None => true end
  | inl _ => false
  end.

Definition colour_not_image (data : frameset) : bool :=
  match as_video_frame (get_color_frame data) with Some _ => false | None => true end.

(** The framesets the capture loop receives when it runs [n] times. *)
Definition captured (env : environment) (n : nat) : list frameset :=
  map (frameset_at env) (seq 30 n).

(** ** The working directory as a finite map from paths to contents *)

Definition store_file (fs : gmap string string) (pc : string * string)
  : gmap string string :=
  <[fst pc := snd pc]> fs.

(** The directory after the writes [ws] have been carried out in order,
    the four sub-directories being present. *)
Definition store_all (ws : list (string * string)) (fs : gmap string string)
  : gmap string string :=
  fold_left store_file ws fs.


(** ** Artifacts of a run *)

Inductive artifact_kind := depth_raw | depth_metadata | colour_png | colour_metadata.

(** [<dir>/<pi_name>_<stream>[_metadata]_<frame_number>.<ext>] *)
Definition artifact_path (pi_name : string) (k : artifact_kind) (n : N) : string :=
  match k with
  | depth_raw => depth_file_name pi_name n
  | depth_metadata => depth_metadata_file_name pi_name n
  | colour_png => colour_file_name pi_name n
  | colour_metadata => colour_metadata_file_name pi_name n
  end.

Definition thread_function_eqb (f g : thread_function) : bool :=
  match f, g with
  | fn_save_frame_depth_data, fn_save_frame_depth_data
  | fn_save_frame_color_data, fn_save_frame_color_data => true
  | _, _ => false
  end.

(** The frame a thread stores, if it stores one: the filtered frame on
    the depth path, the frame itself on the colour path. *)
Definition persisted_frame (env : environment) (t : thread) : option frame :=
  match thread_entry t with
  | fn_save_frame_depth_data =>
      match spec_filter_chain env (thread_frame t) with
      | inr filtered =>
          match as_video_frame filtered with
          | Some _ => Some filtered
          | None => None
          end
      | inl _ => None
      end
  | fn_save_frame_color_data =>
      match as_video_frame (thread_frame t) with
      | Some _ => Some (thread_frame t)
      | None => None
      end
  end.

(** The frame numbers that appear in the file names of one stream, in
    thread creation order. *)
Definition stream_numbers (env : environment) (f : thread_function)
    (ts : list thread) : list N :=
  flat_map (fun t =>
              if thread_function_eqb (thread_entry t) f then
                match persisted_frame env t with
                | Some frm => [get_frame_number frm]
                | None => []
                end
              else []) ts.

Definition image_kind (f : thread_function) : artifact_kind :=
  match f with
  | fn_save_frame_depth_data => depth_raw
  | fn_save_frame_color_data => colour_png
  end.

Definition metadata_kind (f : thread_function) : artifact_kind :=
  match f with
  | fn_save_frame_depth_data => depth_metadata
  | fn_save_frame_color_data => colour_metadata
  end.

Definition stream_of (k : artifact_kind) : thread_function :=
  match k with
  | depth_raw | depth_metadata => fn_save_frame_depth_data
  | colour_png | colour_metadata => fn_save_frame_color_data
  end.

(** The artifacts one thread stores. *)
Definition thread_keys (env : environment) (t : thread) : list (artifact_kind * N) :=
  match persisted_frame env t with
  | Some frm => [(image_kind (thread_entry t), get_frame_number frm);
                 (metadata_kind (thread_entry t), get_frame_number frm)]
  | None => []
  end.

Definition key_path (pi_name : string) (kn : artifact_kind * N) : string :=
  artifact_path pi_name (fst kn) (snd kn).




(** The directory part tells the four kinds of artifact apart. *)
Definition in_depth_dir (k : artifact_kind) : bool :=
  match k with depth_raw => true | _ => false end.

Definition in_colour_dir (k : artifact_kind) : bool :=
  match k with colour_png => true | _ => false end.

Definition on_depth_stream (k : artifact_kind) : bool :=
  match k with depth_raw | depth_metadata => true | _ => false end.

(** ** Vocabulary of the proofs *)

(** The state after [m] more framesets have been delivered, [tasks k]
    being the threads created for the frameset at position [k]. *)
Definition state_after (tasks : nat -> list thread) (m : nat)
    (st : process_state) : process_state :=
  {| sdk_trace := sdk_trace st
                  ++ map call_wait_for_frames (seq (frames_delivered st) m);
     frames_delivered := frames_delivered st + m;
     cerr := cerr st;
     threads := threads st ++ flat_map tasks (seq (frames_delivered st) m) |}.

(** The state in which a run that captured [m] framesets ends. *)
Definition completed_state (env : environment) (raspi_name : string) (m : nat)
  : process_state :=
  {| sdk_trace := setup_calls ++ map call_wait_for_frames (seq 0 (30 + m));
     frames_delivered := 30 + m;
     cerr := "";
     threads := spawned env raspi_name (seq 30 m) |}.

(** From a state satisfying [P], [m] either completes with a value and a
    state satisfying [Q], or stops early in a state satisfying [R]. *)
Definition hoare {S A} (P : S -> Prop) (m : M S A)
    (Q : A -> S -> Prop) (R : S -> Prop) : Prop :=
  forall s, P s ->
    match m s with
    | (Val a, s') => Q a s'
    | (_, s') => R s'
    end.

(** The threads are those of the framesets delivered after the first
    30, in delivery order. *)
Definition threads_shape (env : environment) (raspi_name : string)
    (st : process_state) : Prop :=
  threads st = spawned env raspi_name (seq 30 (frames_delivered st - 30)).

Definition no_thread_yet (st : process_state) : Prop :=
  threads st = [] /\ (frames_delivered st <= 30)%nat.

Definition fresh (st : process_state) : Prop :=
  threads st = [] /\ frames_delivered st = 0%nat.

Definition warmed_up (st : process_state) : Prop :=
  threads st = [] /\ frames_delivered st = 30%nat.

(** ** Vocabulary of the further properties *)

(** The calls of [calls], in order, up to and including the first one the
    SDK answers with an exception, and that exception. *)
Fixpoint first_fault (env : environment) (calls : list sdk_call)
  : option (list sdk_call * exn) :=
  match calls with
  | [] => None
  | c :: rest =>
      match sdk_fault env c with
      | Some e => Some ([c], e)
      | None =>
          match first_fault env rest with
          | Some (made, e) => Some (c :: made, e)
          | None => None
          end
      end
  end.

(** The SDK calls [main] makes before it looks at its arguments. *)
Definition calls_before_arguments (env : environment) : list sdk_call :=
  if (device_count env =? 0)%N then [call_context; call_query_devices]
  else setup_calls.

(** The text sent to [std::cout], piece by piece. *)
Fixpoint couts (log : list effect) : list string :=
  match log with
  | [] => []
  | Cout text :: rest => text :: couts rest
  | FileWrite _ _ :: rest => couts rest
  end.


(** The SDK answered the call without raising. *)
Definition returned (env : environment) (c : sdk_call) : Prop :=
  sdk_fault env c = None.

(** The SDK calls of a run follow the order of the source: a prefix of the
    set-up calls, then (only after all of them) consecutive waits; every
    call but the last returned; the framesets received are as many as the
    waits when these all returned, and one less when the last one
    raised. *)
Definition trace_in_order (env : environment) (st : process_state) : Prop :=
  exists j w,
    sdk_trace st = firstn j setup_calls ++ map call_wait_for_frames (seq 0 w) /\
    (w <> 0%nat -> (length setup_calls <= j)%nat) /\
    Forall (returned env) (removelast (sdk_trace st)) /\
    ((frames_delivered st = w /\
      Forall (returned env) (map call_wait_for_frames (seq 0 w))) \/
     (w = S (frames_delivered st) /\
      ~ returned env (call_wait_for_frames (frames_delivered st)))).

(** The frameset's depth frame makes one of the filters raise. *)
Definition depth_filter_raises (env : environment) (data : frameset) : Prop :=
  exists e, spec_filter_chain env (get_depth_frame data) = inl e.

Definition depth_filter_succeeds (env : environment) (data : frameset) : Prop :=
  exists filtered, spec_filter_chain env (get_depth_frame data) = inr filtered.

(** [j] set-up calls have been made, all successful. *)
Definition setting_up (env : environment) (j : nat) (st : process_state) : Prop :=
  sdk_trace st = firstn j setup_calls /\ frames_delivered st = 0%nat /\
  Forall (returned env) (sdk_trace st).

(** The pipeline is running and every wait so far has delivered. *)
Definition waiting (env : environment) (st : process_state) : Prop :=
  sdk_trace st
  = setup_calls ++ map call_wait_for_frames (seq 0 (frames_delivered st)) /\
  Forall (returned env) (sdk_trace st).

(** Nothing has been sent to [std::cerr]. *)
Definition quiet (st : process_state) : Prop := cerr st = "".

(** * Properties *)

(** ** [strtol] on sample arguments *)

Example strtol_plain : strtol (2^63 - 1) "5" = 5.
Proof. reflexivity. Qed.

Example strtol_trailing_garbage : strtol (2^63 - 1) "  12abc" = 12.
Proof. reflexivity. Qed.

Example strtol_no_digits : strtol (2^63 - 1) "abc" = 0.
Proof. reflexivity. Qed.

Example strtol_negative : strtol (2^63 - 1) "-7" = -7.
Proof. reflexivity. Qed.

Example strtol_saturates : strtol (2^31 - 1) "99999999999" = 2147483647.
Proof. reflexivity. Qed.


(** A string in which no digit follows the optional white space and sign
    converts to 0. *)
Lemma strtol_without_digits (long_max : Z) (s : string) :
  0 <= long_max ->
  match snd (split_sign (skip_spaces s)) with
  | String c _ => digit_value c = None
  | EmptyString => True
  end ->
  strtol long_max s = 0.
Proof.
  intros Hmax Hbody. unfold strtol.
  destruct (split_sign (skip_spaces s)) as [negative body]. simpl in Hbody.
  assert (Hzero : digits_value 0 body = 0).
  { destruct body as [|c body]; [reflexivity|]. simpl. rewrite Hbody. reflexivity. }
  rewrite Hzero. destruct negative; lia.
Qed.

(** ** Strings *)

Section StringFacts.

Lemma append_cons (a : ascii) (s t : string) :
  String a s +:+ t = String a (s +:+ t).
Proof. reflexivity. Qed.

Lemma append_nil_r (s : string) : s +:+ "" = s.
Proof.
  induction s as [|a s IH]; [reflexivity|].
  rewrite append_cons, IH. reflexivity.
Qed.

Lemma append_assoc (s t u : string) : (s +:+ t) +:+ u = s +:+ (t +:+ u).
Proof.
  induction s as [|a s IH]; [reflexivity|].
  rewrite !append_cons, IH. reflexivity.
Qed.

Lemma length_append (s t : string) :
  String.length (s +:+ t) = (String.length s + String.length t)%nat.
Proof.
  induction s as [|a s IH]; [reflexivity|].
  rewrite append_cons. simpl. rewrite IH. reflexivity.
Qed.

Lemma append_inj_l (s t u : string) : s +:+ t = s +:+ u -> t = u.
Proof.
  induction s as [|a s IH]; intros H; [exact H|].
  rewrite !append_cons in H. injection H as H. auto.
Qed.

Lemma append_inj_r (s t u : string) : s +:+ u = t +:+ u -> s = t.
Proof.
  revert t. induction s as [|a s IH]; intros [|b t] H.
  - reflexivity.
  - apply (f_equal String.length) in H.
    rewrite !length_append in H. simpl in H. lia.
  - apply (f_equal String.length) in H.
    rewrite !length_append in H. simpl in H. lia.
  - rewrite !append_cons in H. injection H as -> H.
    f_equal. auto.
Qed.

Lemma prefix_append (s t : string) : String.prefix s (s +:+ t) = true.
Proof.
  induction s as [|a s IH].
  - destruct t; reflexivity.
  - rewrite append_cons. simpl. destruct (ascii_dec a a); [exact IH|congruence].
Qed.

Lemma dec_unsigned_inj (n m : N) : dec_unsigned n = dec_unsigned m -> n = m.
Proof.
  unfold dec_unsigned. intros H.
  apply (f_equal NilEmpty.uint_of_string) in H.
  rewrite !NilEmpty.usu in H. injection H as H.
  apply (f_equal N.of_uint) in H.
  rewrite !DecimalN.Unsigned.of_to in H. exact H.
Qed.

End StringFacts.

(** ** The monad *)

Section MonadFacts.

Context {S : Type}.

Lemma bind_val {A B} (m : M S A) (k : A -> M S B) (s s' : S) (a : A) :
  m s = (Val a, s') -> bind m k s = k a s'.
Proof. intros H. unfold bind. rewrite H. reflexivity. Qed.

Lemma bind_ret {A B} (a : A) (k : A -> M S B) (s : S) :
  bind (ret a) k s = k a s.
Proof. reflexivity. Qed.

Lemma bind_throw {A B} (m : M S A) (k : A -> M S B) (s s' : S) (e : exn) :
  m s = (Throw e, s') -> bind m k s = (Throw e, s').
Proof. intros H. unfold bind. rewrite H. reflexivity. Qed.

(** [Z.to_nat (bound - i)] iterations of fuel are always enough: more
    fuel never changes the result of a [for] loop. *)
Lemma for_int_fuel (body : M S unit) (bound : Z) :
  forall (fuel : nat) (i : Z) (s : S),
    (Z.to_nat (bound - i) <= fuel)%nat ->
    for_int fuel i bound body s
    = for_int (Z.to_nat (bound - i)) i bound body s.
Proof.
  induction fuel as [|fuel IH]; intros i s Hfuel.
  - replace (Z.to_nat (bound - i)) with 0%nat by lia. reflexivity.
  - destruct (Z.ltb_spec i bound) as [Hlt|Hge].
    + replace (Z.to_nat (bound - i)) with (Datatypes.S (Z.to_nat (bound - (i + 1))))
        by lia.
      simpl. destruct (i <? bound); [|reflexivity].
      unfold bind. destruct (body s) as [[[]| | |] s']; try reflexivity.
      destruct (i =? INT_MAX); [reflexivity|].
      apply IH. lia.
    + replace (Z.to_nat (bound - i)) with 0%nat by lia.
      simpl. destruct (Z.ltb_spec i bound); [lia|reflexivity].
Qed.

End MonadFacts.

(** ** Worker threads *)

Section Workers.

Variable env : environment.

Lemma metadata_loop_spec (frm : frame) :
  forall (remaining i : nat) (buf : string),
    metadata_loop env frm remaining i buf
    = (Val tt,
       buf +:+ fold_right String.append ""
                 (map (spec_metadata_line env frm)
                    (List.filter (supports_frame_metadata frm) (seq i remaining)))).
Proof.
  induction remaining as [|remaining IH]; intros i buf.
  - simpl. rewrite append_nil_r. reflexivity.
  - simpl. unfold bind at 1.
    destruct (supports_frame_metadata frm i) eqn:Hsup.
    + unfold supports_frame_metadata in Hsup.
      unfold get_frame_metadata.
      destruct (frame_metadata frm i) as [v|] eqn:Hv; [|discriminate].
      unfold bind, ret, ofstream_put, modify. rewrite IH.
      simpl. unfold spec_metadata_line at 2, metadata_value. rewrite Hv.
      rewrite append_assoc. reflexivity.
    + unfold ret. rewrite IH. reflexivity.
Qed.

Lemma metadata_to_text_spec (frm : frame) (file_name : string) (log : list effect) :
  metadata_to_text env frm file_name log
  = (Val tt, log ++ [FileWrite file_name (spec_metadata_text env frm)]).
Proof.
  unfold metadata_to_text. rewrite metadata_loop_spec.
  unfold metadata_header, spec_metadata_text, spec_metadata_lines.
  rewrite !append_assoc. reflexivity.
Qed.

Lemma save_frame_color_data_spec (pi_name : string) (frm : frame) (log : list effect) :
  save_frame_color_data env pi_name frm log
  = (Val tt, log ++ spec_colour_effects env pi_name frm).
Proof.
  unfold save_frame_color_data, spec_colour_effects.
  destruct (as_video_frame frm) as [image|].
  - unfold bind, emit, modify. rewrite metadata_to_text_spec.
    rewrite <- !List.app_assoc. reflexivity.
  - unfold ret. rewrite app_nil_r. reflexivity.
Qed.

Lemma save_frame_depth_data_spec (pi_name : string) (frm : frame) (log : list effect) :
  save_frame_depth_data env pi_name frm log
  = match spec_filter_chain env frm with
    | inr filtered => (Val tt, log ++ spec_depth_effects env pi_name filtered)
    | inl e => (Throw e, log)
    end.
Proof.
  unfold save_frame_depth_data, spec_filter_chain, sum_bind, process_frame, bind.
  destruct (process env (dec_filter env) frm) as [e|f1]; [reflexivity|].
  unfold ret at 1.
  destruct (process env (depth_to_disparity env) f1) as [e|f2]; [reflexivity|].
  unfold ret at 1.
  destruct (process env (spat_filter env) f2) as [e|f3]; [reflexivity|].
  unfold ret at 1.
  destruct (process env (disparity_to_depth env) f3) as [e|f4]; [reflexivity|].
  unfold ret at 1. unfold spec_depth_effects.
  destruct (as_video_frame f4) as [image|].
  - unfold emit, modify. rewrite metadata_to_text_spec.
    rewrite <- !List.app_assoc. reflexivity.
  - unfold ret. rewrite app_nil_r. reflexivity.
Qed.

End Workers.

(** ** The main thread when the SDK raises nothing *)

Section HealthyRun.

Variable env : environment.

Lemma state_after_0 tasks st : state_after tasks 0 st = st.
Proof.
  destruct st. unfold state_after. simpl.
  rewrite !app_nil_r, Nat.add_0_r. reflexivity.
Qed.

Lemma state_after_S tasks m st :
  state_after tasks m (state_after tasks 1 st) = state_after tasks (Datatypes.S m) st.
Proof.
  destruct st as [tr fd ce ts]. unfold state_after. simpl.
  rewrite !app_nil_r. rewrite <- !List.app_assoc. rewrite !Nat.add_1_r.
  simpl. f_equal. lia.
Qed.

Lemma sdk_ok (c : sdk_call) (st : process_state) :
  sdk_fault env c = None -> sdk env c st = (Val tt, log_call c st).
Proof. intros H. unfold sdk. rewrite H. reflexivity. Qed.

Lemma sdk_raises (c : sdk_call) (e : exn) (st : process_state) :
  sdk_fault env c = Some e -> sdk env c st = (Throw e, log_call c st).
Proof. intros H. unfold sdk. rewrite H. reflexivity. Qed.

Lemma wait_for_frames_ok (st : process_state) :
  sdk_fault env (call_wait_for_frames (frames_delivered st)) = None ->
  wait_for_frames env st
  = (Val (frameset_at env (frames_delivered st)),
     state_after (fun _ => []) 1 st).
Proof.
  intros H. unfold wait_for_frames.
  rewrite (bind_val _ _ _ _ _ (sdk_ok _ _ H)).
  destruct st as [tr fd ce ts]. unfold state_after. cbn.
  rewrite app_nil_r, Nat.add_1_r. reflexivity.
Qed.

Lemma warm_up_step (st : process_state) :
  sdk_fault env (call_wait_for_frames (frames_delivered st)) = None ->
  (wait_for_frames env ;;; ret tt) st = (Val tt, state_after (fun _ => []) 1 st).
Proof.
  intros H. rewrite (bind_val _ _ _ _ _ (wait_for_frames_ok _ H)). reflexivity.
Qed.

Lemma capture_one_ok (raspi_name : string) (st : process_state) :
  sdk_fault env (call_wait_for_frames (frames_delivered st)) = None ->
  capture_one env raspi_name st
  = (Val tt,
     state_after (fun k => threads_of_frameset raspi_name (frameset_at env k)) 1 st).
Proof.
  intros H. unfold capture_one.
  rewrite (bind_val _ _ _ _ _ (wait_for_frames_ok _ H)).
  destruct st as [tr fd ce ts]. unfold state_after. cbn.
  rewrite !app_nil_r. unfold emplace_back, modify, thread_started. cbn.
  rewrite <- List.app_assoc. reflexivity.
Qed.

(** A loop whose body is one successful wait plus thread creation. *)
Lemma for_int_waits (tasks : nat -> list thread) (body : M process_state unit)
    (bound : Z) :
  (forall st,
      sdk_fault env (call_wait_for_frames (frames_delivered st)) = None ->
      body st = (Val tt, state_after tasks 1 st)) ->
  bound <= INT_MAX ->
  forall (fuel : nat) (i : Z) (st : process_state),
    fuel = Z.to_nat (bound - i) ->
    (forall k, (frames_delivered st <= k < frames_delivered st + fuel)%nat ->
               sdk_fault env (call_wait_for_frames k) = None) ->
    for_int fuel i bound body st = (Val tt, state_after tasks fuel st).
Proof.
  intros Hbody Hbound.
  induction fuel as [|fuel IH]; intros i st Hfuel Hok.
  - simpl. rewrite state_after_0. reflexivity.
  - simpl. destruct (Z.ltb_spec i bound) as [Hlt|Hge]; [|lia].
    rewrite (bind_val _ _ _ _ _ (Hbody st (Hok (frames_delivered st) ltac:(lia)))).
    destruct (Z.eqb_spec i INT_MAX) as [Heq|Hne]; [lia|].
    rewrite IH.
    + rewrite state_after_S. reflexivity.
    + lia.
    + intros k Hk. apply Hok. simpl in Hk. lia.
Qed.


Lemma join_all_ok (ts : list thread) (st : process_state) :
  Forall (fun t => fst (run_thread env t) = Val tt) ts ->
  join_all env ts st = (Val tt, st).
Proof.
  induction 1 as [|t ts Ht _ IH]; simpl; [reflexivity|].
  rewrite Ht. exact IH.
Qed.

Lemma join_all_terminates (ts : list thread) (st : process_state) :
  Exists (fun t => fst (run_thread env t) <> Val tt) ts ->
  fst (join_all env ts st) <> Val tt.
Proof.
  induction 1 as [t ts Ht|t ts _ IH]; simpl.
  - destruct (fst (run_thread env t)) as [[]| | |]; simpl; congruence.
  - destruct (fst (run_thread env t)) as [[]| | |]; simpl; auto; discriminate.
Qed.

(** The join loop returns, or ends on the exception of a thread. *)
Lemma join_all_cerr (ts : list thread) (st : process_state) :
  (forall t, In t ts ->
     fst (run_thread env t) = Val tt \/ exists e, fst (run_thread env t) = Throw e) ->
  join_all env ts st = (Val tt, st)
  \/ exists t e, In t ts /\ fst (run_thread env t) = Throw e
       /\ join_all env ts st = (Terminate (Some e), st).
Proof.
  induction ts as [|t ts IH]; intros Hts; simpl; [left; reflexivity|].
  destruct (Hts t (or_introl eq_refl)) as [Ht|[e Ht]].
  - rewrite Ht.
    destruct IH as [IH|(t' & e & Hin & He & IH)];
      [intros t' Hin; apply Hts; right; exact Hin|left; exact IH|].
    right. exists t', e. repeat split; [right; exact Hin|exact He|exact IH].
  - rewrite Ht. right. exists t, e.
    repeat split; [left; reflexivity|exact Ht].
Qed.

(** With a device attached and a cooperative SDK, the try block gets as
    far as [pipe.start] without looking at the arguments. *)
Lemma main_body_started (argv : list string) :
  device_count env <> 0%N ->
  setup_succeeds env ->
  main_body env argv initial_state = main_after_start env argv started_state.
Proof.
  intros Hdev Hsetup.
  assert (H1 : sdk_fault env call_context = None)
    by (apply Hsetup; simpl; tauto).
  assert (H2 : sdk_fault env call_query_devices = None)
    by (apply Hsetup; simpl; tauto).
  assert (H3 : sdk_fault env call_config = None)
    by (apply Hsetup; simpl; tauto).
  assert (H4 : sdk_fault env (call_enable_stream depth_request) = None)
    by (apply Hsetup; simpl; tauto).
  assert (H5 : sdk_fault env (call_enable_stream color_request) = None)
    by (apply Hsetup; simpl; tauto).
  assert (H6 : sdk_fault env call_pipeline = None)
    by (apply Hsetup; simpl; tauto).
  assert (H7 : sdk_fault env (call_pipeline_start [depth_request; color_request])
               = None)
    by (apply Hsetup; simpl; tauto).
  unfold main_body.
  rewrite (bind_val _ _ _ _ _ (sdk_ok _ _ H1)).
  rewrite (bind_val _ _ _ _ _ (sdk_ok _ _ H2)).
  destruct (N.eqb_spec (device_count env) 0) as [|_]; [contradiction|].
  rewrite (bind_val _ _ _ _ _ (sdk_ok _ _ H3)).
  unfold enable_stream.
  rewrite (bind_val _ _ _ _ [depth_request]
             (bind_val _ _ _ _ _ (sdk_ok _ _ H4))).
  rewrite (bind_val _ _ _ _ [depth_request; color_request]
             (bind_val _ _ _ _ _ (sdk_ok _ _ H5))).
  rewrite (bind_val _ _ _ _ _ (sdk_ok _ _ H6)).
  rewrite (bind_val _ _ _ _ _ (sdk_ok _ _ H7)).
  reflexivity.
Qed.

(** Without a device, [main] returns before it configures anything. *)
Lemma main_body_no_device (argv : list string) :
  device_count env = 0%N ->
  sdk_fault env call_context = None ->
  sdk_fault env call_query_devices = None ->
  main_body env argv initial_state = (Val EXIT_FAILURE, no_device_state).
Proof.
  intros Hdev H1 H2. unfold main_body.
  rewrite (bind_val _ _ _ _ _ (sdk_ok _ _ H1)).
  rewrite (bind_val _ _ _ _ _ (sdk_ok _ _ H2)).
  rewrite Hdev. reflexivity.
Qed.

(** With two arguments and a reachable device, [main] reaches the join
    loop after [30 + max(0, num_frames)] waits. *)
Lemma main_body_reaches_join (prog arg1 raspi_name : string) (rest : list string) :
  let num_frames := strtol (LONG_MAX env) arg1 in
  reachable env (30 + Z.to_nat num_frames) ->
  num_frames <= INT_MAX ->
  main_body env (prog :: arg1 :: raspi_name :: rest) initial_state
  = ((fun st => join_all env (threads st) st) ;;; ret EXIT_SUCCESS)
      (completed_state env raspi_name (Z.to_nat num_frames)).
Proof.
  intros num_frames (Hdev & Hsetup & Hwaits) Hmax.
  rewrite (main_body_started _ Hdev Hsetup).
  unfold main_after_start, argv_read, std_string_from_argv. simpl nth_error. cbv iota.
  rewrite !bind_ret.
  fold num_frames.
  erewrite (bind_val (for_int 30 0 30 _)).
  2: { apply (for_int_waits (fun _ => []) _ 30 warm_up_step).
       - unfold INT_MAX. lia.
       - reflexivity.
       - intros k Hk. apply Hwaits. simpl in Hk. lia. }
  erewrite (bind_val (for_int _ 0 num_frames _)).
  2: { apply (for_int_waits _ _ num_frames (capture_one_ok raspi_name)).
       - exact Hmax.
       - f_equal. lia.
       - intros k Hk. apply Hwaits. simpl in Hk. lia. }
  reflexivity.
Qed.


(** ... and exits with status 0 when every thread runs to its end. *)
Lemma main_completes (prog arg1 raspi_name : string) (rest : list string) :
  let num_frames := strtol (LONG_MAX env) arg1 in
  reachable env (30 + Z.to_nat num_frames) ->
  num_frames <= INT_MAX ->
  Forall (fun t => fst (run_thread env t) = Val tt)
    (spawned env raspi_name (seq 30 (Z.to_nat num_frames))) ->
  main env (prog :: arg1 :: raspi_name :: rest)
  = (Exit EXIT_SUCCESS, completed_state env raspi_name (Z.to_nat num_frames)).
Proof.
  intros num_frames Hreach Hmax Hthreads. unfold main.
  rewrite main_body_reaches_join by assumption.
  unfold bind. cbv beta.
  change (threads (completed_state env raspi_name (Z.to_nat num_frames)))
    with (spawned env raspi_name (seq 30 (Z.to_nat num_frames))).
  rewrite (join_all_ok _ _ Hthreads). reflexivity.
Qed.

End HealthyRun.

(** ** Reasoning about every way a computation can end *)

Section Hoare.

Context {S : Type}.

Lemma hoare_ret {A} (a : A) (P : S -> Prop) (Q : A -> S -> Prop)
    (R : S -> Prop) :
  (forall s, P s -> Q a s) -> hoare P (ret a) Q R.
Proof. intros H s Hs. exact (H s Hs). Qed.

Lemma hoare_undef {A} (u : undefined_behaviour) (P : S -> Prop)
    (Q : A -> S -> Prop) (R : S -> Prop) :
  (forall s, P s -> R s) -> hoare P (undef u) Q R.
Proof. intros H s Hs. exact (H s Hs). Qed.

Lemma hoare_bind {A B} (P : S -> Prop) (m : M S A) (k : A -> M S B)
    (Qm : A -> S -> Prop) (Q : B -> S -> Prop) (R : S -> Prop) :
  hoare P m Qm R ->
  (forall a, hoare (Qm a) (k a) Q R) ->
  hoare P (bind m k) Q R.
Proof.
  intros Hm Hk s Hs. specialize (Hm s Hs). unfold bind.
  destruct (m s) as [[a| | |] s']; try exact Hm.
  exact (Hk a s' Hm).
Qed.

Lemma hoare_weaken {A} (P P' : S -> Prop) (m : M S A)
    (Q Q' : A -> S -> Prop) (R R' : S -> Prop) :
  hoare P' m Q' R' ->
  (forall s, P s -> P' s) ->
  (forall a s, Q' a s -> Q a s) ->
  (forall s, R' s -> R s) ->
  hoare P m Q R.
Proof.
  intros Hm HP HQ HR s Hs. specialize (Hm s (HP s Hs)).
  destruct (m s) as [[a| | |] s']; auto.
Qed.

Lemma hoare_assume {A} (fact : Prop) (P : S -> Prop) (m : M S A)
    (Q : A -> S -> Prop) (R : S -> Prop) :
  (fact -> hoare P m Q R) -> hoare (fun s => P s /\ fact) m Q R.
Proof. intros H s [Hs Hfact]. exact (H Hfact s Hs). Qed.

(** The rule for [for (auto i = ...; i < bound; ++i)]: [J i] holds
    whenever the test is evaluated with the counter at [i]. *)
Lemma hoare_for_int (J : Z -> S -> Prop) (R : S -> Prop)
    (body : M S unit) (bound : Z) :
  (forall i, i < bound -> hoare (J i) body (fun _ => J (i + 1)) R) ->
  (forall i s, J i s -> R s) ->
  forall (fuel : nat) (i : Z),
    fuel = Z.to_nat (bound - i) ->
    hoare (J i) (for_int fuel i bound body) (fun _ => J (Z.max i bound)) R.
Proof.
  intros Hbody HJR.
  induction fuel as [|fuel IH]; intros i Hfuel s Hs.
  - simpl. replace (Z.max i bound) with i by lia. exact Hs.
  - simpl. destruct (Z.ltb_spec i bound) as [Hlt|Hge]; [|lia].
    unfold bind. specialize (Hbody i Hlt s Hs).
    destruct (body s) as [[[]| | |] s']; try exact Hbody.
    destruct (Z.eqb_spec i INT_MAX) as [Heq|Hne].
    + exact (HJR _ _ Hbody).
    + specialize (IH (i + 1) ltac:(lia) s' Hbody).
      replace (Z.max (i + 1) bound) with (Z.max i bound) in IH by lia.
      exact IH.
Qed.

End Hoare.

(** ** Which threads exist, however the run ends *)

Section ThreadsOfARun.

Variable env : environment.
Variable raspi_name : string.

Local Abbreviation shape := (threads_shape env raspi_name).

Lemma no_thread_yet_shape st : no_thread_yet st -> shape st.
Proof.
  intros [Hts Hfd]. unfold threads_shape. rewrite Hts.
  replace (frames_delivered st - 30)%nat with 0%nat by lia. reflexivity.
Qed.

Lemma hoare_sdk (P : process_state -> Prop) (c : sdk_call) :
  (forall st, P st -> P (log_call c st)) ->
  hoare P (sdk env c) (fun _ => P) P.
Proof.
  intros HP st Hst. unfold sdk.
  destruct (sdk_fault env c); apply HP, Hst.
Qed.

Lemma fresh_shape st : fresh st -> shape st.
Proof. intros [Hts Hfd]. apply no_thread_yet_shape. split; [exact Hts|lia]. Qed.

Lemma hoare_sdk_fresh (c : sdk_call) :
  hoare fresh (sdk env c) (fun _ => fresh) shape.
Proof.
  eapply hoare_weaken; [apply (hoare_sdk fresh c)| | |]; auto using fresh_shape.
Qed.

Lemma hoare_warm_up :
  hoare fresh (for_int 30 0 30 (wait_for_frames env ;;; ret tt))
    (fun _ => warmed_up) shape.
Proof.
  eapply hoare_weaken.
  - apply (hoare_for_int
             (fun i st => 0 <= i <= 30 /\ threads st = []
                          /\ frames_delivered st = Z.to_nat i)
             no_thread_yet _ 30).
    + intros i Hi st (Hr & Hts & Hfd).
      unfold wait_for_frames, bind, sdk.
      destruct (sdk_fault env _); simpl.
      * split; simpl; [exact Hts|lia].
      * repeat split; try lia. exact Hts.
    + intros i st (Hr & Hts & Hfd). split; [exact Hts|lia].
    + reflexivity.
  - intros st [Hts Hfd]. repeat split; try lia. exact Hts.
  - intros _ st (_ & Hts & Hfd). split; [exact Hts|exact Hfd].
  - apply no_thread_yet_shape.
Qed.

Lemma spawned_snoc (ks : list nat) (k : nat) :
  spawned env raspi_name (ks ++ [k])
  = spawned env raspi_name ks
    ++ threads_of_frameset raspi_name (frameset_at env k).
Proof. unfold spawned. rewrite flat_map_app. reflexivity. Qed.

Lemma hoare_capture_one :
  hoare (fun st => (30 <= frames_delivered st)%nat /\ shape st)
    (capture_one env raspi_name)
    (fun _ st => (30 <= frames_delivered st)%nat /\ shape st)
    shape.
Proof.
  intros st [Hfd Hshape].
  unfold capture_one, wait_for_frames, bind, sdk.
  destruct (sdk_fault env _); simpl; [exact Hshape|].
  split; [lia|]. unfold threads_shape in *. simpl.
  replace (frames_delivered st - 29)%nat
    with ((frames_delivered st - 30) + 1)%nat by lia.
  rewrite seq_app.
  replace (30 + (frames_delivered st - 30))%nat with (frames_delivered st) by lia.
  change (seq (frames_delivered st) 1) with [frames_delivered st].
  rewrite spawned_snoc, Hshape.
  rewrite <- List.app_assoc. reflexivity.
Qed.

Lemma hoare_capture_loop (num_frames : Z) :
  hoare warmed_up
    (for_int (Z.to_nat num_frames) 0 num_frames (capture_one env raspi_name))
    (fun _ st => (30 <= frames_delivered st)%nat /\ shape st) shape.
Proof.
  eapply hoare_weaken.
  - apply (hoare_for_int
             (fun _ st => (30 <= frames_delivered st)%nat /\ shape st)
             shape _ num_frames).
    + intros i _. apply hoare_capture_one.
    + intros _ st [_ H]. exact H.
    + rewrite Z.sub_0_r. reflexivity.
  - intros st [Hts Hfd]. split; [lia|].
    apply no_thread_yet_shape. split; [exact Hts|lia].
  - intros u st H. exact H.
  - auto.
Qed.

Lemma join_all_state (ts : list thread) (st : process_state) :
  snd (join_all env ts st) = st.
Proof.
  induction ts as [|t ts IH]; simpl; [reflexivity|].
  destruct (fst (run_thread env t)); auto.
Qed.

Lemma hoare_join (P : process_state -> Prop) :
  hoare P (fun st => join_all env (threads st) st) (fun _ => P) P.
Proof.
  intros st H. cbv beta.
  generalize (join_all_state (threads st) st).
  destruct (join_all env (threads st) st) as [r st']. simpl.
  intros ->. destruct r; exact H.
Qed.

Lemma hoare_argv_read (argv : list string) (index : nat) :
  hoare fresh (argv_read argv index)
    (fun s st => fresh st /\ s = nth index argv "") shape.
Proof.
  intros st H. unfold argv_read.
  destruct (nth_error argv index) as [s|] eqn:Hnth; simpl.
  - split; [exact H|]. symmetry. apply nth_error_nth. exact Hnth.
  - apply fresh_shape, H.
Qed.

Lemma hoare_std_string_from_argv (argv : list string) (index : nat) :
  hoare fresh (std_string_from_argv env argv index)
    (fun s st => fresh st /\ s = nth index argv "") shape.
Proof.
  intros st H. unfold std_string_from_argv.
  destruct (nth_error argv index) as [s|] eqn:Hnth; simpl.
  - split; [exact H|]. symmetry. apply nth_error_nth. exact Hnth.
  - destruct (index =? length argv)%nat; apply fresh_shape, H.
Qed.

(** The invariant of [main]'s try block; a run that reaches
    [return EXIT_SUCCESS] has been through the whole warm-up. *)
Lemma main_body_shape (argv : list string) :
  raspi_name = nth 2 argv "" ->
  hoare fresh (main_body env argv)
    (fun code st => shape st
                    /\ (code = EXIT_SUCCESS -> (30 <= frames_delivered st)%nat))
    shape.
Proof.
  intros Hname. unfold main_body.
  eapply hoare_bind; [apply hoare_sdk_fresh|intros []; cbv beta].
  eapply hoare_bind; [apply hoare_sdk_fresh|intros []; cbv beta].
  destruct (device_count env =? 0)%N.
  { intros st H. simpl. split; [apply fresh_shape; exact H|discriminate]. }
  eapply hoare_bind; [apply hoare_sdk_fresh|intros []; cbv beta].
  unfold enable_stream.
  eapply hoare_bind.
  { eapply hoare_bind; [apply hoare_sdk_fresh|intros []; cbv beta].
    apply (hoare_ret _ _ (fun _ => fresh)). auto. }
  intros cfg1. eapply hoare_bind.
  { eapply hoare_bind; [apply hoare_sdk_fresh|intros []; cbv beta].
    apply (hoare_ret _ _ (fun _ => fresh)). auto. }
  intros cfg2.
  eapply hoare_bind; [apply hoare_sdk_fresh|intros []; cbv beta].
  eapply hoare_bind; [apply hoare_sdk_fresh|intros []; cbv beta].
  unfold main_after_start.
  eapply hoare_bind; [apply hoare_argv_read|intros arg1; cbv beta].
  apply hoare_assume. intros _.
  eapply hoare_bind; [apply hoare_std_string_from_argv|intros name; cbv beta].
  apply hoare_assume. intros ->. rewrite <- Hname.
  eapply hoare_bind; [apply hoare_warm_up|intros []; cbv beta].
  eapply hoare_bind; [apply hoare_capture_loop|intros []; cbv beta].
  eapply hoare_bind.
  { eapply hoare_weaken;
      [apply (hoare_join (fun st => (30 <= frames_delivered st)%nat /\ shape st))
      | | |]; cbv beta.
    - auto.
    - intros a st H. exact H.
    - intros st [_ H]. exact H. }
  intros []; cbv beta.
  apply hoare_ret. intros st [Hfd H]. auto.
Qed.

(** Whatever the SDK and the arguments do, the threads [main] has
    created are those of the framesets at positions 30, 31, ... *)
Lemma main_threads_shape (argv : list string) :
  raspi_name = nth 2 argv "" ->
  threads_shape env raspi_name (snd (main env argv)).
Proof.
  intros Hname. unfold main.
  pose proof (main_body_shape argv Hname initial_state
                (conj eq_refl eq_refl)) as H.
  destruct (main_body env argv initial_state) as [[code| e | u |] st]; simpl;
    try exact H.
  - apply H.
  - destruct (threads st) eqn:Hts; simpl; [|exact H].
    unfold threads_shape in *. simpl. rewrite <- H. reflexivity.
Qed.

End ThreadsOfARun.

(** A run that exits with status 0 has received at least 30 framesets. *)
Lemma main_success_warmed_up (env : environment) (argv : list string) :
  fst (main env argv) = Exit EXIT_SUCCESS ->
  (30 <= frames_delivered (snd (main env argv)))%nat.
Proof.
  unfold main.
  pose proof (main_body_shape env _ argv eq_refl initial_state
                (conj eq_refl eq_refl)) as H.
  destruct (main_body env argv initial_state) as [[code| e | u |] st]; simpl.
  - intros Hcode. injection Hcode as ->. apply H. reflexivity.
  - destruct (threads st); simpl; discriminate.
  - discriminate.
  - discriminate.
Qed.

(** ** File names *)

Section Artifacts.

Variable env : environment.

Lemma depth_file_name_inj (pi_name : string) (n m : N) :
  depth_file_name pi_name n = depth_file_name pi_name m -> n = m.
Proof.
  unfold depth_file_name. intros H.
  apply append_inj_l, append_inj_l, append_inj_l, append_inj_r in H.
  apply dec_unsigned_inj, H.
Qed.

Lemma depth_metadata_file_name_inj (pi_name : string) (n m : N) :
  depth_metadata_file_name pi_name n = depth_metadata_file_name pi_name m -> n = m.
Proof.
  unfold depth_metadata_file_name. intros H.
  apply append_inj_l, append_inj_l, append_inj_l, append_inj_r in H.
  apply dec_unsigned_inj, H.
Qed.

Lemma colour_file_name_inj (pi_name : string) (n m : N) :
  colour_file_name pi_name n = colour_file_name pi_name m -> n = m.
Proof.
  unfold colour_file_name. intros H.
  apply append_inj_l, append_inj_l, append_inj_l, append_inj_r in H.
  apply dec_unsigned_inj, H.
Qed.

Lemma colour_metadata_file_name_inj (pi_name : string) (n m : N) :
  colour_metadata_file_name pi_name n = colour_metadata_file_name pi_name m -> n = m.
Proof.
  unfold colour_metadata_file_name. intros H.
  apply append_inj_l, append_inj_l, append_inj_l, append_inj_r in H.
  apply dec_unsigned_inj, H.
Qed.

Lemma prefix_depth_dir (pi_name : string) (k : artifact_kind) (n : N) :
  String.prefix "depth/" (artifact_path pi_name k n) = in_depth_dir k.
Proof. destruct k; try reflexivity. apply prefix_append. Qed.

Lemma prefix_colour_dir (pi_name : string) (k : artifact_kind) (n : N) :
  String.prefix "colour/" (artifact_path pi_name k n) = in_colour_dir k.
Proof. destruct k; try reflexivity. apply prefix_append. Qed.

Lemma prefix_depth_stream (pi_name : string) (k : artifact_kind) (n : N) :
  String.prefix "d" (artifact_path pi_name k n) = on_depth_stream k.
Proof. destruct k; reflexivity. Qed.


Lemma artifact_path_kind (pi_name : string) (k k' : artifact_kind) (n n' : N) :
  artifact_path pi_name k n = artifact_path pi_name k' n' -> k = k'.
Proof.
  intros H.
  pose proof (f_equal (String.prefix "depth/") H) as H1.
  pose proof (f_equal (String.prefix "colour/") H) as H2.
  pose proof (f_equal (String.prefix "d") H) as H3.
  rewrite !prefix_depth_dir in H1. rewrite !prefix_colour_dir in H2.
  rewrite !prefix_depth_stream in H3.
  destruct k, k'; simpl in *; congruence.
Qed.

Lemma artifact_path_inj (pi_name : string) (k k' : artifact_kind) (n n' : N) :
  artifact_path pi_name k n = artifact_path pi_name k' n' -> k = k' /\ n = n'.
Proof.
  intros H. pose proof (artifact_path_kind _ _ _ _ _ H) as <-.
  split; [reflexivity|].
  destruct k; simpl in H;
    eauto using depth_file_name_inj, depth_metadata_file_name_inj,
      colour_file_name_inj, colour_metadata_file_name_inj.
Qed.

(** *** What a thread leaves behind *)

Lemma run_thread_depth (pi_name : string) (frm : frame) :
  run_thread env {| thread_entry := fn_save_frame_depth_data;
                    thread_pi_name := pi_name; thread_frame := frm |}
  = match spec_filter_chain env frm with
    | inr filtered => (Val tt, spec_depth_effects env pi_name filtered)
    | inl e => (Throw e, [])
    end.
Proof. unfold run_thread. simpl. apply save_frame_depth_data_spec. Qed.

Lemma run_thread_colour (pi_name : string) (frm : frame) :
  run_thread env {| thread_entry := fn_save_frame_color_data;
                    thread_pi_name := pi_name; thread_frame := frm |}
  = (Val tt, spec_colour_effects env pi_name frm).
Proof. unfold run_thread. simpl. apply save_frame_color_data_spec. Qed.

Lemma file_writes_app (l1 l2 : list effect) :
  file_writes (l1 ++ l2) = file_writes l1 ++ file_writes l2.
Proof.
  induction l1 as [|[p c|text] l1 IH]; simpl; [reflexivity| |exact IH].
  rewrite IH. reflexivity.
Qed.

Lemma thread_paths (t : thread) :
  map fst (file_writes (thread_log env t))
  = map (key_path (thread_pi_name t)) (thread_keys env t).
Proof.
  destruct t as [[] pi_name frm]; unfold thread_log, thread_keys, persisted_frame.
  - rewrite run_thread_depth. simpl.
    destruct (spec_filter_chain env frm) as [e|filtered]; [reflexivity|].
    unfold spec_depth_effects.
    destruct (as_video_frame filtered); reflexivity.
  - rewrite run_thread_colour. simpl.
    unfold spec_colour_effects.
    destruct (as_video_frame frm); reflexivity.
Qed.

Lemma run_paths (pi_name : string) (ts : list thread) :
  Forall (fun t => thread_pi_name t = pi_name) ts ->
  map fst (file_writes (concat (map (thread_log env) ts)))
  = map (key_path pi_name) (flat_map (thread_keys env) ts).
Proof.
  induction 1 as [|t ts Ht _ IH]; simpl; [reflexivity|].
  rewrite file_writes_app, !map_app, IH, thread_paths, Ht. reflexivity.
Qed.

Lemma spawned_pi_name (pi_name : string) (ks : list nat) :
  Forall (fun t => thread_pi_name t = pi_name) (spawned env pi_name ks).
Proof.
  induction ks as [|k ks IH]; simpl; [constructor|].
  repeat constructor. exact IH.
Qed.

(** *** Distinct frame numbers give distinct artifacts *)


Lemma stream_numbers_cons (f : thread_function) (t : thread) (ts : list thread) :
  stream_numbers env f (t :: ts)
  = (if thread_function_eqb (thread_entry t) f then
       match persisted_frame env t with
       | Some frm => [get_frame_number frm]
       | None => []
       end
     else []) ++ stream_numbers env f ts.
Proof. reflexivity. Qed.

Lemma keys_numbers (k : artifact_kind) (n : N) (ts : list thread) :
  In (k, n) (flat_map (thread_keys env) ts) ->
  In n (stream_numbers env (stream_of k) ts).
Proof.
  induction ts as [|t ts IH]; simpl; [auto|].
  rewrite in_app_iff. intros [Hown|Hrest].
  - apply in_or_app. left. unfold thread_keys in Hown.
    destruct (persisted_frame env t) as [frm|]; [|contradiction].
    destruct Hown as [H|[H|[]]]; injection H as <- <-;
      destruct (thread_entry t); simpl; auto.
  - apply in_or_app. right. auto.
Qed.

Lemma NoDup_app_tail {A} (l1 l2 : list A) : List.NoDup (l1 ++ l2) -> List.NoDup l2.
Proof.
  induction l1 as [|a l1 IH]; simpl; [auto|].
  intros H. apply IH. apply NoDup_cons_iff in H. tauto.
Qed.

Lemma keys_NoDup (ts : list thread) :
  List.NoDup (stream_numbers env fn_save_frame_depth_data ts) ->
  List.NoDup (stream_numbers env fn_save_frame_color_data ts) ->
  List.NoDup (flat_map (thread_keys env) ts).
Proof.
  induction ts as [|t ts IH]; [constructor|].
  rewrite !stream_numbers_cons. intros Hd Hc. cbn [flat_map].
  pose proof (NoDup_app_tail _ _ Hd) as Hd'.
  pose proof (NoDup_app_tail _ _ Hc) as Hc'.
  specialize (IH Hd' Hc').
  unfold thread_keys at 1.
  destruct (persisted_frame env t) as [frm|]; [|exact IH].
  destruct (thread_entry t); simpl in Hd, Hc |- *.
  - apply NoDup_cons_iff in Hd as [Hnew _].
    constructor; [|constructor; [|exact IH]].
    + intros [H|H]; [discriminate|]. apply keys_numbers in H. exact (Hnew H).
    + intros H. apply keys_numbers in H. exact (Hnew H).
  - apply NoDup_cons_iff in Hc as [Hnew _].
    constructor; [|constructor; [|exact IH]].
    + intros [H|H]; [discriminate|]. apply keys_numbers in H. exact (Hnew H).
    + intros H. apply keys_numbers in H. exact (Hnew H).
Qed.

Lemma key_path_NoDup (pi_name : string) (keys : list (artifact_kind * N)) :
  List.NoDup keys -> List.NoDup (map (key_path pi_name) keys).
Proof.
  induction 1 as [|kn keys Hnotin _ IH]; simpl; constructor; [|exact IH].
  rewrite in_map_iff. intros ([k' n'] & Heq & Hin).
  destruct kn as [k n]. unfold key_path in Heq. simpl in Heq.
  apply artifact_path_inj in Heq as [-> ->]. contradiction.
Qed.

(** *** The directory after the writes *)



End Artifacts.

(** ** Counting the artifacts of a run *)

Section Counting.

Variable env : environment.
Variable pi_name : string.

Lemma written_under_app (dir : string) (l1 l2 : list effect) :
  written_under dir (l1 ++ l2) = written_under dir l1 ++ written_under dir l2.
Proof. unfold written_under. rewrite file_writes_app. apply List.filter_app. Qed.

Lemma depth_dir_of_depth_effects (frm : frame) :
  written_under "depth/" (spec_depth_effects env pi_name frm)
  = match as_video_frame frm with
    | Some image => [(depth_file_name pi_name (get_frame_number frm), raw_pixels image)]
    | None => []
    end.
Proof.
  unfold spec_depth_effects, written_under.
  destruct (as_video_frame frm) as [image|]; [|reflexivity].
  cbn [file_writes List.filter fst].
  rewrite (prefix_depth_dir pi_name depth_raw _ : String.prefix _ (depth_file_name _ _) = _).
  rewrite (prefix_depth_dir pi_name depth_metadata _
           : String.prefix _ (depth_metadata_file_name _ _) = _).
  reflexivity.
Qed.

Lemma colour_dir_of_colour_effects (frm : frame) :
  written_under "colour/" (spec_colour_effects env pi_name frm)
  = match as_video_frame frm with
    | Some image =>
        [(colour_file_name pi_name (get_frame_number frm),
          stbi_png_encode env (get_width image) (get_height image)
            (get_bytes_per_pixel image) (get_data image) (get_stride_in_bytes image))]
    | None => []
    end.
Proof.
  unfold spec_colour_effects, written_under.
  destruct (as_video_frame frm) as [image|]; [|reflexivity].
  cbn [file_writes List.filter fst].
  rewrite (prefix_colour_dir pi_name colour_png _ : String.prefix _ (colour_file_name _ _) = _).
  rewrite (prefix_colour_dir pi_name colour_metadata _
           : String.prefix _ (colour_metadata_file_name _ _) = _).
  reflexivity.
Qed.

Lemma depth_dir_of_colour_effects (frm : frame) :
  written_under "depth/" (spec_colour_effects env pi_name frm) = [].
Proof.
  unfold spec_colour_effects, written_under.
  destruct (as_video_frame frm) as [image|]; reflexivity.
Qed.

Lemma colour_dir_of_depth_effects (frm : frame) :
  written_under "colour/" (spec_depth_effects env pi_name frm) = [].
Proof.
  unfold spec_depth_effects, written_under.
  destruct (as_video_frame frm) as [image|]; reflexivity.
Qed.

(** The logs of the two threads of one frameset. *)
Lemma frameset_logs (data : frameset) (filtered : frame) :
  spec_filter_chain env (get_depth_frame data) = inr filtered ->
  concat (map (thread_log env) (threads_of_frameset pi_name data))
  = spec_depth_effects env pi_name filtered
    ++ spec_colour_effects env pi_name (get_color_frame data).
Proof.
  intros Hchain. unfold threads_of_frameset, thread_log. simpl.
  rewrite run_thread_depth, run_thread_colour, Hchain. simpl.
  rewrite app_nil_r. reflexivity.
Qed.

Lemma spawned_logs (k : nat) (ks : list nat) :
  concat (map (thread_log env) (spawned env pi_name (k :: ks)))
  = concat (map (thread_log env) (threads_of_frameset pi_name (frameset_at env k)))
    ++ concat (map (thread_log env) (spawned env pi_name ks)).
Proof.
  unfold spawned. simpl. rewrite !app_nil_r, List.app_assoc. reflexivity.
Qed.

Lemma depth_artifact_count (ks : list nat) :
  (forall k, In k ks ->
     exists filtered,
       spec_filter_chain env (get_depth_frame (frameset_at env k)) = inr filtered) ->
  (length (written_under "depth/"
             (concat (map (thread_log env) (spawned env pi_name ks))))
   + length (List.filter (depth_not_image env) (map (frameset_at env) ks))
   = length ks)%nat.
Proof.
  induction ks as [|k ks IH]; intros Hchain; [reflexivity|].
  destruct (Hchain k (or_introl eq_refl)) as [filtered Hk].
  rewrite spawned_logs, (frameset_logs _ _ Hk), !written_under_app.
  rewrite depth_dir_of_depth_effects, depth_dir_of_colour_effects.
  specialize (IH (fun j Hj => Hchain j (or_intror Hj))).
  simpl map. simpl List.filter. unfold depth_not_image at 1. rewrite Hk.
  rewrite !length_app.
  destruct (as_video_frame filtered); simpl; lia.
Qed.

Lemma colour_artifact_count (ks : list nat) :
  (forall k, In k ks ->
     exists filtered,
       spec_filter_chain env (get_depth_frame (frameset_at env k)) = inr filtered) ->
  (length (written_under "colour/"
             (concat (map (thread_log env) (spawned env pi_name ks))))
   + length (List.filter colour_not_image (map (frameset_at env) ks))
   = length ks)%nat.
Proof.
  induction ks as [|k ks IH]; intros Hchain; [reflexivity|].
  destruct (Hchain k (or_introl eq_refl)) as [filtered Hk].
  rewrite spawned_logs, (frameset_logs _ _ Hk), !written_under_app.
  rewrite colour_dir_of_depth_effects, colour_dir_of_colour_effects.
  specialize (IH (fun j Hj => Hchain j (or_intror Hj))).
  simpl map. simpl List.filter. unfold colour_not_image at 1.
  rewrite !length_app.
  destruct (as_video_frame (get_color_frame (frameset_at env k))); simpl; lia.
Qed.

(** Threads end normally when the SDK filters raise nothing. *)
Lemma spawned_complete (ks : list nat) :
  (forall k, In k ks ->
     exists filtered,
       spec_filter_chain env (get_depth_frame (frameset_at env k)) = inr filtered) ->
  Forall (fun t => fst (run_thread env t) = Val tt) (spawned env pi_name ks).
Proof.
  induction ks as [|k ks IH]; intros Hchain; simpl; [constructor|].
  destruct (Hchain k (or_introl eq_refl)) as [filtered Hk].
  constructor; [rewrite run_thread_depth, Hk; reflexivity|].
  constructor; [rewrite run_thread_colour; reflexivity|].
  apply IH. intros j Hj. apply Hchain. right. exact Hj.
Qed.

End Counting.

(** * The claims *)

(** ** Artifact counts (C1) *)

(** C1, counterexample.  A valid frame count and a reachable device are
    not enough.  Here three framesets are requested and delivered, and the
    depth frame of the second one is not an image.  The processing blocks
    of this device refuse such a frame: the exception leaves
    [save_frame_depth_data], the entry function of a thread, and the
    process is aborted by [std::terminate] instead of skipping the frame
    and going on; the run does not complete, whatever its threads had
    written by then. *)
Lemma refused_depth_frame_aborts_the_run :
  strtol (LONG_MAX (Sim.strict Sim.odd_frameset)) "3" = 3 /\
  reachable (Sim.strict Sim.odd_frameset) (30 + 3) /\
  fst (main (Sim.strict Sim.odd_frameset) ["capture"; "3"; "pi"]) = Aborted /\
  fst (main (Sim.strict Sim.odd_frameset) ["capture"; "3"; "pi"])
  <> Exit EXIT_SUCCESS /\
  cerr (snd (main (Sim.strict Sim.odd_frameset) ["capture"; "3"; "pi"]))
  = "terminate called after throwing an instance of 'rs2::error'" +:+ endl
    +:+ "  what():  null pointer passed for argument frame" +:+ endl.
Proof.
  split; [reflexivity|]. split.
  - split; [discriminate|]. split; [intros c Hc|intros k Hk]; reflexivity.
  - vm_compute. repeat split; try reflexivity. discriminate.
Qed.

(** C1, amended.  When [argv[1]] parses to a frame count [n] with
    [0 <= n <= INT_MAX], the device is reachable for the [30 + n] waits of
    the run and no processing block of the SDK raises on a captured depth
    frame, [main] exits with status 0, the number of files written under
    [depth/] is [n] minus the number of captured framesets whose filtered
    depth frame is not an image, and the number of files written under
    [colour/] is [n] minus the number of captured framesets whose colour
    frame is not an image; for [n = 0] nothing is written under either
    directory.  Files are counted as writes: one per stored frame. *)
Theorem artifact_count_per_stream
    (env : environment) (prog arg1 raspi_name : string) (rest : list string)
    (n : Z) :
  strtol (LONG_MAX env) arg1 = n ->
  0 <= n <= INT_MAX ->
  reachable env (30 + Z.to_nat n) ->
  (forall data, In data (captured env (Z.to_nat n)) ->
     exists filtered, spec_filter_chain env (get_depth_frame data) = inr filtered) ->
  fst (main env (prog :: arg1 :: raspi_name :: rest)) = Exit EXIT_SUCCESS /\
  Z.of_nat (length (written_under "depth/"
                      (run_effects env
                         (snd (main env (prog :: arg1 :: raspi_name :: rest))))))
  = n - Z.of_nat (length (List.filter (depth_not_image env)
                            (captured env (Z.to_nat n)))) /\
  Z.of_nat (length (written_under "colour/"
                      (run_effects env
                         (snd (main env (prog :: arg1 :: raspi_name :: rest))))))
  = n - Z.of_nat (length (List.filter colour_not_image
                            (captured env (Z.to_nat n)))) /\
  (n = 0 ->
   written_under "depth/"
     (run_effects env (snd (main env (prog :: arg1 :: raspi_name :: rest)))) = [] /\
   written_under "colour/"
     (run_effects env (snd (main env (prog :: arg1 :: raspi_name :: rest)))) = []).
Proof.
  intros Hparse Hrange Hreach Hchain.
  assert (Hks : forall k, In k (seq 30 (Z.to_nat n)) ->
                  exists filtered,
                    spec_filter_chain env (get_depth_frame (frameset_at env k))
                    = inr filtered).
  { intros k Hk. apply Hchain. unfold captured. apply in_map. exact Hk. }
  pose proof (main_completes env prog arg1 raspi_name rest) as Hmain.
  cbv zeta in Hmain. rewrite Hparse in Hmain.
  rewrite (Hmain Hreach (proj2 Hrange) (spawned_complete env raspi_name _ Hks)).
  cbn [fst snd]. unfold run_effects. cbn [threads completed_state].
  pose proof (depth_artifact_count env raspi_name _ Hks) as Hd.
  pose proof (colour_artifact_count env raspi_name _ Hks) as Hc.
  rewrite length_seq in Hd, Hc. fold (captured env (Z.to_nat n)) in Hd, Hc.
  split; [reflexivity|]. split; [lia|]. split; [lia|].
  intros ->. split; reflexivity.
Qed.

Lemma artifact_count_per_stream_witness :
  fst (main (Sim.device (fun _ => None) Sim.odd_frameset) ["capture"; "3"; "pi"])
  = Exit EXIT_SUCCESS /\
  Z.of_nat (length (written_under "depth/"
                      (run_effects (Sim.device (fun _ => None) Sim.odd_frameset)
                         (snd (main (Sim.device (fun _ => None) Sim.odd_frameset)
                                 ["capture"; "3"; "pi"])))))
  = 3 - Z.of_nat (length (List.filter
                            (depth_not_image (Sim.device (fun _ => None) Sim.odd_frameset))
                            (captured (Sim.device (fun _ => None) Sim.odd_frameset)
                               (Z.to_nat 3)))) /\
  Z.of_nat (length (written_under "colour/"
                      (run_effects (Sim.device (fun _ => None) Sim.odd_frameset)
                         (snd (main (Sim.device (fun _ => None) Sim.odd_frameset)
                                 ["capture"; "3"; "pi"])))))
  = 3 - Z.of_nat (length (List.filter colour_not_image
                            (captured (Sim.device (fun _ => None) Sim.odd_frameset)
                               (Z.to_nat 3)))) /\
  (3 = 0 ->
   written_under "depth/"
     (run_effects (Sim.device (fun _ => None) Sim.odd_frameset)
        (snd (main (Sim.device (fun _ => None) Sim.odd_frameset)
                ["capture"; "3"; "pi"]))) = [] /\
   written_under "colour/"
     (run_effects (Sim.device (fun _ => None) Sim.odd_frameset)
        (snd (main (Sim.device (fun _ => None) Sim.odd_frameset)
                ["capture"; "3"; "pi"]))) = []).
Proof.
  apply (artifact_count_per_stream
           (Sim.device (fun _ => None) Sim.odd_frameset) "capture" "3" "pi" [] 3).
  - reflexivity.
  - unfold INT_MAX. lia.
  - split; [discriminate|]. split; [intros c Hc|intros k Hk]; reflexivity.
  - intros data _. eexists. reflexivity.
Defined.

(** On that simulated device, one of three depth frames is not an image:
    two depth files and three colour files are written. *)
Example odd_run_counts :
  let env := Sim.device (fun _ => None) Sim.odd_frameset in
  let log := run_effects env (snd (main env ["capture"; "3"; "pi"])) in
  map fst (written_under "depth/" log)
  = ["depth/pi_depth_30.raw"; "depth/pi_depth_32.raw"] /\
  map fst (written_under "colour/" log)
  = ["colour/pi_colour_130.png"; "colour/pi_colour_131.png";
     "colour/pi_colour_132.png"].
Proof. vm_compute. split; reflexivity. Qed.

(** ** Exit codes (C2) *)

(** Runs in which [main] does return 1 and reports on [std::cerr]. *)

Lemma main_no_device (env : environment) (argv : list string) :
  device_count env = 0%N ->
  sdk_fault env call_context = None ->
  sdk_fault env call_query_devices = None ->
  main env argv = (Exit EXIT_FAILURE, no_device_state).
Proof.
  intros Hdev H1 H2. unfold main.
  rewrite (main_body_no_device env argv Hdev H1 H2). reflexivity.
Qed.

(** An exception raised while no thread exists reaches a handler. *)
Lemma main_handles_errors_before_threads (env : environment) (argv : list string)
    (e : exn) (st : process_state) :
  main_body env argv initial_state = (Throw e, st) ->
  threads st = [] ->
  main env argv = (Exit EXIT_FAILURE, cerr_append (handler_message e) st).
Proof. intros Hbody Hts. unfold main. rewrite Hbody, Hts. reflexivity. Qed.

(** An exception raised once a thread exists never reaches a handler:
    what reaches the error stream is the report of the terminate
    handler. *)
Lemma main_aborts_on_errors_after_threads (env : environment) (argv : list string)
    (e : exn) (st : process_state) :
  main_body env argv initial_state = (Throw e, st) ->
  threads st <> [] ->
  main env argv = (Aborted, cerr_append (terminate_text env None) st).
Proof.
  intros Hbody Hts. unfold main. rewrite Hbody.
  destruct (threads st); [contradiction|reflexivity].
Qed.

Example pipeline_start_error_is_reported :
  let faults c :=
    match c with
    | call_pipeline_start _ =>
        Some (rs2_error "rs2_pipeline_start_with_config" "pipe:0x55, config:0x66"
                "Couldn't resolve requests")
    | _ => None
    end in
  let run := main (Sim.device faults Sim.numbered_frameset) ["capture"; "2"; "pi"] in
  fst run = Exit EXIT_FAILURE /\
  cerr (snd run)
  = "RealSense error calling rs2_pipeline_start_with_config(pipe:0x55, config:0x66):"
    +:+ endl +:+ "    Couldn't resolve requests" +:+ endl.
Proof. vm_compute. split; reflexivity. Qed.

Example warm_up_timeout_is_reported :
  let run := main (Sim.device (Sim.timeout_at 7) Sim.numbered_frameset)
               ["capture"; "2"; "pi"] in
  fst run = Exit EXIT_FAILURE /\
  cerr (snd run)
  = "RealSense error calling rs2_pipeline_wait_for_frames(pipe:0x55, timeout_ms:15000):"
    +:+ endl +:+ "    Frame didn't arrive within 15000" +:+ endl.
Proof. vm_compute. split; reflexivity. Qed.

Example first_capture_timeout_is_reported :
  fst (main (Sim.device (Sim.timeout_at 30) Sim.numbered_frameset)
         ["capture"; "2"; "pi"])
  = Exit EXIT_FAILURE.
Proof. vm_compute. reflexivity. Qed.

(** C2.  Two framesets are requested and the second wait of the capture
    loop (the 32nd overall) times out with an SDK error.  The two threads
    of the first frameset are then held, still joinable, by [threads];
    leaving the try block destroys them, which calls [std::terminate]:
    the process is aborted, no handler of [main] runs, no exit code 1 is
    returned, and the only text on the error stream is the terminate
    handler's, which names neither the failed SDK call nor its message. *)
Theorem acquisition_error_after_first_capture_aborts :
  fst (main (Sim.device (Sim.timeout_at 31) Sim.numbered_frameset)
         ["capture"; "2"; "pi"]) = Aborted /\
  fst (main (Sim.device (Sim.timeout_at 31) Sim.numbered_frameset)
         ["capture"; "2"; "pi"]) <> Exit EXIT_FAILURE /\
  cerr (snd (main (Sim.device (Sim.timeout_at 31) Sim.numbered_frameset)
               ["capture"; "2"; "pi"]))
  = "terminate called without an active exception" +:+ endl /\
  length (threads (snd (main (Sim.device (Sim.timeout_at 31) Sim.numbered_frameset)
                          ["capture"; "2"; "pi"]))) = 2%nat.
Proof. vm_compute. repeat split; try reflexivity. discriminate. Qed.

(** ** Warm-up (C3) *)

(** C3.  However a run goes, the threads [main] has created are exactly
    those of the framesets delivered at positions 30, 31, ... (positions
    count from 0), in order: every thread works on a frame of a frameset
    at a position of at least 30, all file and console effects of the run
    come from these threads, and a run that exits with status 0 has
    first received the 30 warm-up framesets. *)
Theorem warm_up_framesets_never_persisted (env : environment) (argv : list string) :
  threads (snd (main env argv))
  = spawned env (nth 2 argv "")
      (seq 30 (frames_delivered (snd (main env argv)) - 30)) /\
  Forall (fun t =>
            exists k, (30 <= k < frames_delivered (snd (main env argv)))%nat /\
                      In t (threads_of_frameset (nth 2 argv "") (frameset_at env k)))
    (threads (snd (main env argv))) /\
  run_effects env (snd (main env argv))
  = concat (map (thread_log env)
              (spawned env (nth 2 argv "")
                 (seq 30 (frames_delivered (snd (main env argv)) - 30)))) /\
  (fst (main env argv) = Exit EXIT_SUCCESS ->
   (30 <= frames_delivered (snd (main env argv)))%nat).
Proof.
  pose proof (main_threads_shape env (nth 2 argv "") argv eq_refl) as Hshape.
  unfold threads_shape in Hshape.
  split; [exact Hshape|]. split; [|split].
  - rewrite Hshape. apply List.Forall_forall. intros t Ht.
    unfold spawned in Ht. apply in_flat_map in Ht as (k & Hk & Ht).
    apply in_seq in Hk. exists k. split; [lia|exact Ht].
  - unfold run_effects. rewrite <- Hshape. reflexivity.
  - apply main_success_warmed_up.
Qed.

Lemma warm_up_framesets_never_persisted_witness :
  (30 <= frames_delivered (snd (main Sim.healthy ["capture"; "2"; "pi"])))%nat.
Proof.
  apply (warm_up_framesets_never_persisted Sim.healthy ["capture"; "2"; "pi"]).
  reflexivity.
Defined.

(** On the simulated device the depth frame of the frameset at position
    [k] carries frame number [k]: the first file written is number 30. *)
Example first_persisted_frameset :
  map fst (file_writes (run_effects Sim.healthy
                          (snd (main Sim.healthy ["capture"; "2"; "pi"]))))
  = ["depth/pi_depth_30.raw"; "depth_metadata/pi_depth_metadata_30.txt";
     "colour/pi_colour_130.png"; "colour_metadata/pi_colour_metadata_130.txt";
     "depth/pi_depth_31.raw"; "depth_metadata/pi_depth_metadata_31.txt";
     "colour/pi_colour_131.png"; "colour_metadata/pi_colour_metadata_131.txt"].
Proof. vm_compute. reflexivity. Qed.

(** ** The depth filter chain (C4) *)

(** C4.  [save_frame_depth_data] runs four processing blocks on the depth
    frame, each on the output of the one before: a decimation filter whose
    magnitude option is 3, a disparity transform to the disparity domain, a
    spatial filter whose smooth-alpha option is 0.6 and whose other
    options (smooth delta among them) are the SDK defaults, and a
    disparity transform back to the depth domain.  An exception from any
    block ends the thread with nothing written; otherwise the files
    written are the raw pixels and the metadata of the final frame of the
    chain, and nothing else. *)
Theorem depth_filter_chain_order
    (env : environment) (pi_name : string) (frm : frame) (log : list effect) :
  (block (dec_filter env) = decimation_filter /\
   get_option (dec_filter env) RS2_OPTION_FILTER_MAGNITUDE = Some 3%Q) /\
  (block (depth_to_disparity env) = disparity_transform true /\
   get_option (depth_to_disparity env)
   = default_options env (disparity_transform true)) /\
  (block (spat_filter env) = spatial_filter /\
   get_option (spat_filter env) RS2_OPTION_FILTER_SMOOTH_ALPHA = Some 0.6%Q /\
   get_option (spat_filter env) RS2_OPTION_FILTER_SMOOTH_DELTA
   = default_options env spatial_filter RS2_OPTION_FILTER_SMOOTH_DELTA /\
   get_option (spat_filter env) RS2_OPTION_FILTER_MAGNITUDE
   = default_options env spatial_filter RS2_OPTION_FILTER_MAGNITUDE /\
   get_option (spat_filter env) RS2_OPTION_HOLES_FILL
   = default_options env spatial_filter RS2_OPTION_HOLES_FILL) /\
  (block (disparity_to_depth env) = disparity_transform false /\
   get_option (disparity_to_depth env)
   = default_options env (disparity_transform false)) /\
  save_frame_depth_data env pi_name frm log
  = match process env (dec_filter env) frm with
    | inl e => (Throw e, log)
    | inr decimated =>
        match process env (depth_to_disparity env) decimated with
        | inl e => (Throw e, log)
        | inr disparity =>
            match process env (spat_filter env) disparity with
            | inl e => (Throw e, log)
            | inr smoothed =>
                match process env (disparity_to_depth env) smoothed with
                | inl e => (Throw e, log)
                | inr filtered =>
                    (Val tt, log ++ spec_depth_effects env pi_name filtered)
                end
            end
        end
    end /\
  Forall (fun pc =>
            exists filtered image,
              spec_filter_chain env frm = inr filtered /\
              as_video_frame filtered = Some image /\
              (pc = (depth_file_name pi_name (get_frame_number filtered),
                     raw_pixels image) \/
               pc = (depth_metadata_file_name pi_name (get_frame_number filtered),
                     spec_metadata_text env filtered)))
    (file_writes (snd (save_frame_depth_data env pi_name frm []))).
Proof.
  repeat (split; [repeat split; reflexivity|]).
  split.
  - rewrite save_frame_depth_data_spec.
    unfold spec_filter_chain, sum_bind.
    destruct (process env (dec_filter env) frm) as [e|f1]; [reflexivity|].
    destruct (process env (depth_to_disparity env) f1) as [e|f2]; [reflexivity|].
    destruct (process env (spat_filter env) f2) as [e|f3]; [reflexivity|].
    destruct (process env (disparity_to_depth env) f3) as [e|f4]; reflexivity.
  - rewrite save_frame_depth_data_spec.
    destruct (spec_filter_chain env frm) as [e|filtered]; [constructor|].
    unfold spec_depth_effects.
    destruct (as_video_frame filtered) as [image|] eqn:Himage; [|constructor].
    simpl. repeat constructor; exists filtered, image; auto.
Qed.

(** On the simulated device every block appends its mark to the pixels:
    decimation with magnitude 3 ([D]), to disparity ([>]), spatial with
    alpha 0.6 and default delta ([S]), back to depth ([<]). *)
Example filter_marks_in_order :
  file_writes (snd (save_frame_depth_data Sim.healthy "pi"
                      (Sim.video RS2_STREAM_DEPTH 7 "zz") []))
  = [("depth/pi_depth_7.raw", "zzD>S<");
     ("depth_metadata/pi_depth_metadata_7.txt",
      "Stream,Depth" +:+ endl +:+ "Metadata Attribute,Value" +:+ endl
      +:+ "Frame Timestamp,70" +:+ endl +:+ "Actual Exposure,-4" +:+ endl)].
Proof. vm_compute. reflexivity. Qed.

(** ** Frames that are not images (C5) *)

(** C5.  A colour frame that is not an image makes [save_frame_color_data]
    return normally with the log unchanged, and a depth frame whose
    filtered result is not an image makes [save_frame_depth_data] return
    normally with the log unchanged: no image file, no metadata file, no
    console line and no exception. *)
Theorem non_image_frames_are_skipped
    (env : environment) (pi_name : string) (log : list effect) :
  (forall frm,
      as_video_frame frm = None ->
      save_frame_color_data env pi_name frm log = (Val tt, log)) /\
  (forall frm filtered,
      spec_filter_chain env frm = inr filtered ->
      as_video_frame filtered = None ->
      save_frame_depth_data env pi_name frm log = (Val tt, log)).
Proof.
  split.
  - intros frm Hnone. rewrite save_frame_color_data_spec.
    unfold spec_colour_effects. rewrite Hnone, app_nil_r. reflexivity.
  - intros frm filtered Hchain Hnone. rewrite save_frame_depth_data_spec, Hchain.
    unfold spec_depth_effects. rewrite Hnone, app_nil_r. reflexivity.
Qed.

Lemma non_image_frames_are_skipped_witness :
  save_frame_color_data Sim.healthy "pi" (Sim.non_video RS2_STREAM_COLOR 5) []
  = (Val tt, []) /\
  save_frame_depth_data Sim.healthy "pi" (Sim.non_video RS2_STREAM_DEPTH 5) []
  = (Val tt, []).
Proof.
  split.
  - apply (proj1 (non_image_frames_are_skipped Sim.healthy "pi" [])).
    reflexivity.
  - apply (proj2 (non_image_frames_are_skipped Sim.healthy "pi" [])
             (Sim.non_video RS2_STREAM_DEPTH 5)
             (Sim.non_video RS2_STREAM_DEPTH 5)); reflexivity.
Defined.

(** ** The metadata file (C6) *)

(** C6.  [metadata_to_text] returns normally after writing one file whose
    content is the line [Stream,<stream type name>], the line
    [Metadata Attribute,Value], and then, for each attribute index below
    [RS2_FRAME_METADATA_COUNT] that the frame supports, taken in increasing
    index order, the line [<attribute name>,<value>]; unsupported
    attributes contribute nothing, and each printed value is the one the
    frame holds for that attribute. *)
Theorem metadata_text_layout
    (env : environment) (frm : frame) (file_name : string) (log : list effect) :
  metadata_to_text env frm file_name log
  = (Val tt,
     log ++ [FileWrite file_name
               ("Stream," +:+ rs2_stream_to_string env (stream_type frm) +:+ endl
                +:+ "Metadata Attribute,Value" +:+ endl
                +:+ fold_right String.append ""
                      (map (fun i => rs2_frame_metadata_to_string env i +:+ ","
                                     +:+ dec_signed (metadata_value frm i) +:+ endl)
                         (List.filter (supports_frame_metadata frm)
                            (seq 0 (RS2_FRAME_METADATA_COUNT env)))))]) /\
  Forall (fun i => (i < RS2_FRAME_METADATA_COUNT env)%nat /\
                   frame_metadata frm i = Some (metadata_value frm i))
    (List.filter (supports_frame_metadata frm)
       (seq 0 (RS2_FRAME_METADATA_COUNT env))) /\
  StronglySorted lt
    (List.filter (supports_frame_metadata frm)
       (seq 0 (RS2_FRAME_METADATA_COUNT env))).
Proof.
  split; [apply metadata_to_text_spec|]. split.
  - apply List.Forall_forall. intros i Hi.
    apply filter_In in Hi as [Hi Hsup]. apply in_seq in Hi.
    split; [lia|].
    unfold supports_frame_metadata in Hsup. unfold metadata_value.
    destruct (frame_metadata frm i); [reflexivity|discriminate].
  - generalize 0%nat.
    induction (RS2_FRAME_METADATA_COUNT env) as [|count IH]; intros start;
      simpl; [constructor|].
    destruct (supports_frame_metadata frm start); [|apply IH].
    constructor; [apply IH|].
    apply List.Forall_forall. intros i Hi.
    apply filter_In in Hi as [Hi _]. apply in_seq in Hi. lia.
Qed.

(** A frame that supports attributes 1 and 3 out of 5: exactly two data
    lines, in enumeration order. *)
Example sparse_metadata_text :
  snd (metadata_to_text Sim.healthy (Sim.video RS2_STREAM_COLOR 12 "rgb")
         "colour_metadata/pi_colour_metadata_12.txt" [])
  = [FileWrite "colour_metadata/pi_colour_metadata_12.txt"
       ("Stream,Color" +:+ endl +:+ "Metadata Attribute,Value" +:+ endl
        +:+ "Frame Timestamp,120" +:+ endl +:+ "Actual Exposure,-4" +:+ endl)].
Proof. vm_compute. reflexivity. Qed.

(** ** File names (C7) *)



(** The precondition matters: when the pipeline delivers the same depth
    frame twice, the second file replaces the first. *)
Example repeated_frame_number_collides :
  let env := Sim.device (fun _ => None) (fun _ => Sim.numbered_frameset 0) in
  map fst (written_under "depth/"
             (run_effects env (snd (main env ["capture"; "2"; "pi"]))))
  = ["depth/pi_depth_0.raw"; "depth/pi_depth_0.raw"].
Proof. vm_compute. reflexivity. Qed.

(** ** The frame count argument (C8, C9) *)

(** C8, counterexample.  The argument [abc] is not a number, yet the run
    is not treated as an error: it is read as 0 frames and the process
    exits with status 0 and an empty [std::cerr]. *)
Lemma malformed_frame_count_is_accepted :
  ~ reports_error (main Sim.healthy ["capture"; "abc"; "pi"]).
Proof.
  unfold reports_error. vm_compute. intros [H|H]; apply H; reflexivity.
Qed.

(** C8, amended.  The frame count is whatever [strtol] makes of
    [argv[1]] in base 10: leading white space and a sign are skipped, the
    longest run of digits is converted, the rest of the string is ignored,
    and a string without such digits gives 0.  No string is rejected: for
    every [argv[1]], if the value [n] obtained is at most [INT_MAX], the
    device stays reachable for the [30 + max(0, n)] waits and no
    processing block of the SDK raises on one of the [max(0, n)] captured
    depth frames (there is none when [n <= 0], as for a string without
    digits), the run is not treated as an error; it captures [max(0, n)]
    framesets after the warm-up and exits with status 0 with nothing on
    [std::cerr]. *)
Theorem every_frame_count_string_is_accepted
    (env : environment) (prog arg1 raspi_name : string) (rest : list string)
    (n : Z) :
  strtol (LONG_MAX env) arg1 = n ->
  n <= INT_MAX ->
  reachable env (30 + Z.to_nat n) ->
  (forall data, In data (captured env (Z.to_nat n)) ->
     exists filtered, spec_filter_chain env (get_depth_frame data) = inr filtered) ->
  main env (prog :: arg1 :: raspi_name :: rest)
  = (Exit EXIT_SUCCESS, completed_state env raspi_name (Z.to_nat n)) /\
  ~ reports_error (main env (prog :: arg1 :: raspi_name :: rest)).
Proof.
  intros Hparse Hmax Hreach Hchain.
  assert (Hks : forall k, In k (seq 30 (Z.to_nat n)) ->
                  exists filtered,
                    spec_filter_chain env (get_depth_frame (frameset_at env k))
                    = inr filtered).
  { intros k Hk. apply Hchain. unfold captured. apply in_map. exact Hk. }
  pose proof (main_completes env prog arg1 raspi_name rest) as Hmain.
  cbv zeta in Hmain. rewrite Hparse in Hmain.
  rewrite (Hmain Hreach Hmax (spawned_complete env raspi_name _ Hks)).
  split; [reflexivity|].
  unfold reports_error. simpl. intros [H|H]; apply H; reflexivity.
Qed.

Lemma every_frame_count_string_is_accepted_witness :
  main Sim.healthy ["capture"; " 2 frames"; "pi"]
  = (Exit EXIT_SUCCESS, completed_state Sim.healthy "pi" (Z.to_nat 2)) /\
  ~ reports_error (main Sim.healthy ["capture"; " 2 frames"; "pi"]).
Proof.
  apply (every_frame_count_string_is_accepted
           Sim.healthy "capture" " 2 frames" "pi" [] 2).
  - reflexivity.
  - unfold INT_MAX. lia.
  - split; [discriminate|]. split; [intros c Hc|intros k Hk]; reflexivity.
  - intros data _. eexists. reflexivity.
Defined.

(** C9.  When [argv[1]] parses to a value that is zero or negative and
    the device is reachable for the 30 warm-up waits, the capture loop
    body never runs: exactly 30 framesets are received, no thread is
    created, nothing is written or printed, and [main] exits with
    status 0. *)
Theorem non_positive_frame_count_captures_nothing
    (env : environment) (prog arg1 raspi_name : string) (rest : list string) :
  strtol (LONG_MAX env) arg1 <= 0 ->
  reachable env 30 ->
  fst (main env (prog :: arg1 :: raspi_name :: rest)) = Exit EXIT_SUCCESS /\
  threads (snd (main env (prog :: arg1 :: raspi_name :: rest))) = [] /\
  run_effects env (snd (main env (prog :: arg1 :: raspi_name :: rest))) = [] /\
  frames_delivered (snd (main env (prog :: arg1 :: raspi_name :: rest))) = 30%nat /\
  cerr (snd (main env (prog :: arg1 :: raspi_name :: rest))) = "".
Proof.
  intros Hn Hreach.
  pose proof (main_completes env prog arg1 raspi_name rest) as Hmain.
  cbv zeta in Hmain.
  replace (Z.to_nat (strtol (LONG_MAX env) arg1)) with 0%nat in Hmain by lia.
  rewrite Hmain.
  - repeat split; reflexivity.
  - exact Hreach.
  - unfold INT_MAX. lia.
  - constructor.
Qed.

Lemma non_positive_frame_count_captures_nothing_witness :
  fst (main Sim.healthy ["capture"; "-3"; "pi"]) = Exit EXIT_SUCCESS /\
  threads (snd (main Sim.healthy ["capture"; "-3"; "pi"])) = [] /\
  run_effects Sim.healthy (snd (main Sim.healthy ["capture"; "-3"; "pi"])) = [] /\
  frames_delivered (snd (main Sim.healthy ["capture"; "-3"; "pi"])) = 30%nat /\
  cerr (snd (main Sim.healthy ["capture"; "-3"; "pi"])) = "".
Proof.
  apply (non_positive_frame_count_captures_nothing Sim.healthy "capture" "-3" "pi" []).
  - vm_compute. discriminate.
  - split; [discriminate|]. split; [intros c Hc|intros k Hk]; reflexivity.
Defined.

(** ** Missing arguments (C10) *)

(** C10, counterexample.  One argument is fewer than two, yet the run
    ends on the exit-code-1 path: [argv[2]] is the null pointer that closes
    [argv], the construction of [raspi_name] from it throws
    [std::logic_error] while no thread exists, and the handler for
    [std::exception] prints its message and returns 1.  All seven set-up
    calls have been made by then. *)
Lemma one_argument_run_returns_failure :
  fst (main Sim.healthy ["capture"; "5"]) = Exit EXIT_FAILURE /\
  cerr (snd (main Sim.healthy ["capture"; "5"]))
  = "basic_string: construction from null is not valid" +:+ endl /\
  sdk_trace (snd (main Sim.healthy ["capture"; "5"])) = setup_calls.
Proof. vm_compute. repeat split; reflexivity. Qed.

(** C10, amended.  [main] never looks at [argc] and reads its arguments
    only after the pipeline has been started.  With fewer than two
    arguments and an SDK that raises nothing up to [pipe.start]: when no
    device is attached the run ends like any other run without a device
    (message, status 1) and the arguments are never read; when a device is
    attached the pipeline is started first, and then
    - with no argument at all (or an empty [argv]) [strtol] is handed the
      null or missing [argv[1]]: the behaviour is undefined, no handler
      of [main] is involved and nothing has been printed;
    - with exactly one argument [argv[1]] is converted, and the
      construction of [raspi_name] from the null [argv[2]] throws
      [std::logic_error], which the handler for [std::exception] reports:
      the library's message on [std::cerr] and status 1, with no frameset
      awaited and no thread created. *)
Theorem missing_arguments_are_read_unchecked
    (env : environment) (argv : list string) :
  setup_succeeds env ->
  (length argv < 3)%nat ->
  main env argv
  = if (device_count env =? 0)%N
    then (Exit EXIT_FAILURE, no_device_state)
    else if (length argv =? 2)%nat
         then (Exit EXIT_FAILURE,
               cerr_append (null_string_what env +:+ endl) started_state)
         else (Undefined (null_argv 1), started_state).
Proof.
  intros Hsetup Hargc.
  destruct (N.eqb_spec (device_count env) 0) as [Hdev|Hdev].
  - apply main_no_device; [exact Hdev| |]; apply Hsetup; simpl; tauto.
  - unfold main. rewrite (main_body_started env argv Hdev Hsetup).
    destruct argv as [|prog [|arg1 [|raspi_name rest]]]; simpl in Hargc;
      try lia; reflexivity.
Qed.

Lemma missing_arguments_are_read_unchecked_witness :
  main Sim.healthy ["capture"]
  = (Undefined (null_argv 1), started_state) /\
  main Sim.healthy ["capture"; "5"]
  = (Exit EXIT_FAILURE,
     cerr_append (null_string_what Sim.healthy +:+ endl) started_state) /\
  main Sim.unplugged ["capture"]
  = (Exit EXIT_FAILURE, no_device_state).
Proof.
  split; [|split].
  - apply (missing_arguments_are_read_unchecked Sim.healthy ["capture"]).
    + intros c Hc. reflexivity.
    + simpl. lia.
  - apply (missing_arguments_are_read_unchecked Sim.healthy ["capture"; "5"]).
    + intros c Hc. reflexivity.
    + simpl. lia.
  - apply (missing_arguments_are_read_unchecked Sim.unplugged ["capture"]).
    + intros c Hc. reflexivity.
    + simpl. lia.
Defined.

(** * Further properties of the driver *)

(** ** Start-up *)

(** X1.  When the SDK reports no device (and raises nothing while being
    asked), [main] prints [No RealSense devices found!] on [std::cerr] and
    returns 1 after exactly two SDK calls: no stream is configured, no
    pipeline is created, no frameset is awaited, no thread is created,
    nothing is written, and the arguments are never read, whatever they
    are. *)
Theorem no_device_run (env : environment) (argv : list string) :
  device_count env = 0%N ->
  sdk_fault env call_context = None ->
  sdk_fault env call_query_devices = None ->
  fst (main env argv) = Exit EXIT_FAILURE /\
  cerr (snd (main env argv)) = "No RealSense devices found!" +:+ endl /\
  sdk_trace (snd (main env argv)) = [call_context; call_query_devices] /\
  frames_delivered (snd (main env argv)) = 0%nat /\
  run_effects env (snd (main env argv)) = [].
Proof.
  intros Hdev H1 H2. unfold main.
  rewrite (main_body_no_device env argv Hdev H1 H2).
  repeat split; reflexivity.
Qed.

Lemma no_device_run_witness :
  fst (main Sim.unplugged []) = Exit EXIT_FAILURE /\
  cerr (snd (main Sim.unplugged [])) = "No RealSense devices found!" +:+ endl /\
  sdk_trace (snd (main Sim.unplugged [])) = [call_context; call_query_devices] /\
  frames_delivered (snd (main Sim.unplugged [])) = 0%nat /\
  run_effects Sim.unplugged (snd (main Sim.unplugged [])) = [].
Proof. apply (no_device_run Sim.unplugged []); reflexivity. Defined.

(** X2.  When one of the SDK calls that precede the reading of the
    arguments raises, [main] stops at that call, prints the message of the
    matching handler on [std::cerr] and returns 1, whatever the arguments
    are (even when they are missing): no frameset has been awaited and no
    thread exists. *)
Theorem set_up_error_is_reported
    (env : environment) (argv : list string) (made : list sdk_call) (e : exn) :
  first_fault env (calls_before_arguments env) = Some (made, e) ->
  main env argv
  = (Exit EXIT_FAILURE,
     {| sdk_trace := made; frames_delivered := 0;
        cerr := handler_message e; threads := [] |}).
Proof.
  unfold calls_before_arguments, setup_calls, main, main_body, enable_stream.
  unfold bind at 1. unfold sdk at 1.
  destruct (device_count env =? 0)%N eqn:Hdev; simpl first_fault;
    (destruct (sdk_fault env call_context) as [e1|];
     [intros H; injection H as <- <-; reflexivity|]);
    unfold bind at 1; unfold sdk at 1;
    (destruct (sdk_fault env call_query_devices) as [e2|];
     [intros H; injection H as <- <-; reflexivity|]);
    [discriminate|].
  unfold bind at 1. unfold sdk at 1.
  destruct (sdk_fault env call_config) as [e3|];
    [intros H; injection H as <- <-; reflexivity|].
  unfold bind at 1. unfold bind at 1. unfold sdk at 1.
  destruct (sdk_fault env (call_enable_stream depth_request)) as [e4|];
    [intros H; injection H as <- <-; reflexivity|].
  unfold ret at 1. unfold bind at 1. unfold bind at 1. unfold sdk at 1.
  destruct (sdk_fault env (call_enable_stream color_request)) as [e5|];
    [intros H; injection H as <- <-; reflexivity|].
  unfold ret at 1. unfold bind at 1. unfold sdk at 1.
  destruct (sdk_fault env call_pipeline) as [e6|];
    [intros H; injection H as <- <-; reflexivity|].
  unfold bind at 1. unfold sdk at 1. simpl app.
  destruct (sdk_fault env (call_pipeline_start [depth_request; color_request]))
    as [e7|]; [intros H; injection H as <- <-; reflexivity|].
  discriminate.
Qed.

Lemma set_up_error_is_reported_witness :
  main (Sim.device
          (fun c => match c with
                    | call_pipeline =>
                        Some (std_exception "failed to create the pipeline")
                    | _ => None
                    end)
          Sim.numbered_frameset) []
  = (Exit EXIT_FAILURE,
     {| sdk_trace := [call_context; call_query_devices; call_config;
                      call_enable_stream depth_request;
                      call_enable_stream color_request; call_pipeline];
        frames_delivered := 0;
        cerr := "failed to create the pipeline" +:+ endl;
        threads := [] |}).
Proof.
  apply (set_up_error_is_reported
           (Sim.device
              (fun c => match c with
                        | call_pipeline =>
                            Some (std_exception "failed to create the pipeline")
                        | _ => None
                        end)
              Sim.numbered_frameset) []
           [call_context; call_query_devices; call_config;
            call_enable_stream depth_request;
            call_enable_stream color_request; call_pipeline]
           (std_exception "failed to create the pipeline")).
  reflexivity.
Defined.

(** ** Errors while waiting for framesets *)

Section AcquisitionFaults.

Variable env : environment.

Lemma wait_for_frames_raises (st : process_state) (e : exn) :
  sdk_fault env (call_wait_for_frames (frames_delivered st)) = Some e ->
  wait_for_frames env st
  = (Throw e, log_call (call_wait_for_frames (frames_delivered st)) st).
Proof.
  intros H. unfold wait_for_frames.
  apply bind_throw. apply sdk_raises. exact H.
Qed.

Lemma warm_up_step_raises (st : process_state) (e : exn) :
  sdk_fault env (call_wait_for_frames (frames_delivered st)) = Some e ->
  (wait_for_frames env ;;; ret tt) st
  = (Throw e, log_call (call_wait_for_frames (frames_delivered st)) st).
Proof. intros H. apply bind_throw, wait_for_frames_raises, H. Qed.

Lemma capture_one_raises (raspi_name : string) (st : process_state) (e : exn) :
  sdk_fault env (call_wait_for_frames (frames_delivered st)) = Some e ->
  capture_one env raspi_name st
  = (Throw e, log_call (call_wait_for_frames (frames_delivered st)) st).
Proof. intros H. apply bind_throw, wait_for_frames_raises, H. Qed.

(** A loop of waits whose iteration number [m] (counting from 0) raises. *)
Lemma for_int_waits_fault (tasks : nat -> list thread)
    (body : M process_state unit) (bound : Z) :
  (forall st,
      sdk_fault env (call_wait_for_frames (frames_delivered st)) = None ->
      body st = (Val tt, state_after tasks 1 st)) ->
  (forall st e,
      sdk_fault env (call_wait_for_frames (frames_delivered st)) = Some e ->
      body st = (Throw e, log_call (call_wait_for_frames (frames_delivered st)) st)) ->
  forall (m fuel : nat) (i : Z) (st : process_state) (e : exn),
    (m < fuel)%nat ->
    i + Z.of_nat m < bound ->
    i + Z.of_nat m <= INT_MAX ->
    (forall k, (frames_delivered st <= k < frames_delivered st + m)%nat ->
               sdk_fault env (call_wait_for_frames k) = None) ->
    sdk_fault env (call_wait_for_frames (frames_delivered st + m)) = Some e ->
    for_int fuel i bound body st
    = (Throw e,
       log_call (call_wait_for_frames (frames_delivered st + m))
         (state_after tasks m st)).
Proof.
  intros Hok Hraise.
  induction m as [|m IH]; intros fuel i st e Hfuel Hbound Hmax Hwaits Hfault;
    (destruct fuel as [|fuel]; [lia|]); simpl for_int;
    (destruct (Z.ltb_spec i bound) as [Hlt|Hge]; [|lia]).
  - rewrite Nat.add_0_r in *. rewrite state_after_0.
    apply bind_throw, Hraise, Hfault.
  - rewrite (bind_val _ _ _ _ _ (Hok st (Hwaits (frames_delivered st) ltac:(lia)))).
    destruct (Z.eqb_spec i INT_MAX) as [Heq|Hne]; [lia|].
    rewrite (IH fuel (i + 1) (state_after tasks 1 st) e); try lia.
    + rewrite state_after_S. simpl frames_delivered.
      replace (frames_delivered st + 1 + m)%nat
        with (frames_delivered st + Datatypes.S m)%nat by lia.
      reflexivity.
    + intros k Hk. apply Hwaits. simpl in Hk. lia.
    + simpl frames_delivered.
      replace (frames_delivered st + 1 + m)%nat
        with (frames_delivered st + Datatypes.S m)%nat by lia.
      exact Hfault.
Qed.

Lemma flat_map_nothing {A B} (l : list A) : flat_map (fun _ => @nil B) l = [].
Proof. induction l as [|a l IH]; simpl; auto. Qed.

(** The try block when the wait at position [k] raises. *)
Lemma main_body_wait_fault (prog arg1 raspi_name : string) (rest : list string)
    (k : nat) (e : exn) :
  reachable env k ->
  sdk_fault env (call_wait_for_frames k) = Some e ->
  ((30 <= k)%nat ->
   Z.of_nat (k - 30) < strtol (LONG_MAX env) arg1 /\ Z.of_nat (k - 30) <= INT_MAX) ->
  exists st,
    main_body env (prog :: arg1 :: raspi_name :: rest) initial_state = (Throw e, st) /\
    cerr st = "" /\
    threads st = spawned env raspi_name (seq 30 (k - 30)) /\
    frames_delivered st = k /\
    sdk_trace st = setup_calls ++ map call_wait_for_frames (seq 0 (Datatypes.S k)).
Proof.
  intros (Hdev & Hsetup & Hwaits) Hfault Hloop.
  rewrite (main_body_started env _ Hdev Hsetup).
  unfold main_after_start, argv_read, std_string_from_argv. simpl nth_error. cbv iota.
  rewrite !bind_ret.
  destruct (Nat.lt_ge_cases k 30) as [Hk|Hk].
  - eexists. split.
    + apply bind_throw.
      apply (for_int_waits_fault (fun _ => []) _ 30
               (warm_up_step env) warm_up_step_raises k 30 0 started_state e).
      * exact Hk.
      * lia.
      * unfold INT_MAX. lia.
      * intros j Hj. apply Hwaits. simpl in Hj. lia.
      * exact Hfault.
    + split; [reflexivity|]. split; [|split; [reflexivity|]].
      * simpl threads. rewrite flat_map_nothing.
        replace (k - 30)%nat with 0%nat by lia. reflexivity.
      * simpl sdk_trace. rewrite seq_S, map_app, List.app_assoc. reflexivity.
  - destruct (Hloop Hk) as [Hn Hmax].
    erewrite (bind_val (for_int 30 0 30 _)).
    2: { apply (for_int_waits env (fun _ => []) _ 30 (warm_up_step env)).
         - unfold INT_MAX. lia.
         - reflexivity.
         - intros j Hj. apply Hwaits. simpl in Hj. lia. }
    eexists. split.
    + apply bind_throw.
      apply (for_int_waits_fault _ _ _
               (capture_one_ok env raspi_name) (capture_one_raises raspi_name)
               (k - 30) _ 0 _ e).
      * lia.
      * lia.
      * lia.
      * intros j Hj. apply Hwaits. simpl in Hj. lia.
      * simpl frames_delivered. replace (30 + (k - 30))%nat with k by lia.
        exact Hfault.
    + split; [reflexivity|]. split; [reflexivity|]. split.
      * simpl frames_delivered. lia.
      * replace (Datatypes.S k) with (30 + (k - 30 + 1))%nat by lia.
        rewrite (seq_app 30 (k - 30 + 1) 0), (seq_app (k - 30) 1 (0 + 30)).
        rewrite !map_app, !List.app_assoc. reflexivity.
Qed.

End AcquisitionFaults.

(** X3.  When the wait at position [k <= 30] is the first SDK call to
    raise (any of the 30 warm-up waits, or the first wait of the capture
    loop when at least one frame is requested), [main] prints the handler
    message for that exception on [std::cerr] and returns 1; the [k]
    framesets received so far are dropped, no thread has been created and
    nothing has been written. *)
Theorem early_acquisition_error_is_reported
    (env : environment) (prog arg1 raspi_name : string) (rest : list string)
    (k : nat) (e : exn) :
  reachable env k ->
  sdk_fault env (call_wait_for_frames k) = Some e ->
  (k <= 30)%nat ->
  (k = 30%nat -> 0 < strtol (LONG_MAX env) arg1) ->
  fst (main env (prog :: arg1 :: raspi_name :: rest)) = Exit EXIT_FAILURE /\
  cerr (snd (main env (prog :: arg1 :: raspi_name :: rest))) = handler_message e /\
  threads (snd (main env (prog :: arg1 :: raspi_name :: rest))) = [] /\
  run_effects env (snd (main env (prog :: arg1 :: raspi_name :: rest))) = [] /\
  frames_delivered (snd (main env (prog :: arg1 :: raspi_name :: rest))) = k /\
  sdk_trace (snd (main env (prog :: arg1 :: raspi_name :: rest)))
  = setup_calls ++ map call_wait_for_frames (seq 0 (Datatypes.S k)).
Proof.
  intros Hreach Hfault Hk Hfirst.
  destruct (main_body_wait_fault env prog arg1 raspi_name rest k e Hreach Hfault)
    as (st & Hbody & Hcerr & Hthreads & Hfd & Htrace).
  { intros H30. assert (k = 30%nat) as -> by lia.
    split; [exact (Hfirst eq_refl)|unfold INT_MAX; lia]. }
  replace (k - 30)%nat with 0%nat in Hthreads by lia. simpl in Hthreads.
  unfold main, run_effects. rewrite Hbody, Hthreads.
  cbn [fst snd cerr_append cerr threads frames_delivered sdk_trace].
  rewrite Hcerr, Hthreads.
  repeat split; try reflexivity; assumption.
Qed.

Lemma early_acquisition_error_is_reported_witness :
  fst (main (Sim.device (Sim.timeout_at 30) Sim.numbered_frameset)
         ["capture"; "4"; "pi"]) = Exit EXIT_FAILURE.
Proof.
  apply (early_acquisition_error_is_reported
           (Sim.device (Sim.timeout_at 30) Sim.numbered_frameset)
           "capture" "4" "pi" [] 30
           (rs2_error "rs2_pipeline_wait_for_frames" "pipe:0x55, timeout_ms:15000"
              "Frame didn't arrive within 15000")).
  - split; [discriminate|]. split; [intros c Hc|intros j Hj].
    + simpl in Hc. repeat (destruct Hc as [<-|Hc]; [reflexivity|]). contradiction.
    + simpl. destruct (Nat.eqb_spec j 30); [lia|reflexivity].
  - reflexivity.
  - lia.
  - intros _. reflexivity.
Defined.

(** X4.  When the wait at position [k > 30] raises, that is a wait of the
    capture loop after at least one frameset has been handed to threads,
    and none of the threads created so far raises on its own, the
    exception leaves the try block while [threads] holds the
    [2 * (k - 30)] joinable threads of the framesets at positions
    30 .. k-1: the process is aborted by [std::terminate], no exit code
    is returned, and what reaches the error stream is not the message of
    [main]'s handler but only the terminate handler's report of a call
    without active exception. *)
Theorem late_acquisition_error_aborts
    (env : environment) (prog arg1 raspi_name : string) (rest : list string)
    (k : nat) (e : exn) :
  reachable env k ->
  sdk_fault env (call_wait_for_frames k) = Some e ->
  (30 < k)%nat ->
  Z.of_nat (k - 30) < strtol (LONG_MAX env) arg1 ->
  Z.of_nat (k - 30) <= INT_MAX ->
  Forall (depth_filter_succeeds env) (captured env (k - 30)) ->
  fst (main env (prog :: arg1 :: raspi_name :: rest)) = Aborted /\
  cerr (snd (main env (prog :: arg1 :: raspi_name :: rest)))
  = terminate_text env None /\
  threads (snd (main env (prog :: arg1 :: raspi_name :: rest)))
  = spawned env raspi_name (seq 30 (k - 30)) /\
  length (threads (snd (main env (prog :: arg1 :: raspi_name :: rest))))
  = (2 * (k - 30))%nat /\
  frames_delivered (snd (main env (prog :: arg1 :: raspi_name :: rest))) = k.
Proof.
  intros Hreach Hfault Hk Hn Hmax _.
  destruct (main_body_wait_fault env prog arg1 raspi_name rest k e Hreach Hfault)
    as (st & Hbody & Hcerr & Hthreads & Hfd & Htrace); [auto|].
  assert (Hlen : forall ks, length (spawned env raspi_name ks) = (2 * length ks)%nat).
  { induction ks as [|j ks IH]; simpl; [reflexivity|]. simpl in IH. lia. }
  unfold main. rewrite Hbody.
  destruct (threads st) as [|t ts] eqn:Hts.
  - pose proof (Hlen (seq 30 (k - 30))) as H.
    rewrite <- Hthreads, length_seq in H. simpl in H. lia.
  - cbn [fst snd cerr_append cerr threads frames_delivered].
    rewrite Hcerr, Hts, Hthreads, Hlen, length_seq. auto.
Qed.

Lemma late_acquisition_error_aborts_witness :
  fst (main (Sim.device (Sim.timeout_at 33) Sim.numbered_frameset)
         ["capture"; "5"; "pi"]) = Aborted /\
  cerr (snd (main (Sim.device (Sim.timeout_at 33) Sim.numbered_frameset)
               ["capture"; "5"; "pi"]))
  = "terminate called without an active exception" +:+ endl.
Proof.
  refine ((fun H => conj (proj1 H) (proj1 (proj2 H)))
            (late_acquisition_error_aborts
               (Sim.device (Sim.timeout_at 33) Sim.numbered_frameset)
               "capture" "5" "pi" [] 33
               (rs2_error "rs2_pipeline_wait_for_frames"
                  "pipe:0x55, timeout_ms:15000"
                  "Frame didn't arrive within 15000") _ _ _ _ _ _)).
  - split; [discriminate|]. split; [intros c Hc|intros j Hj].
    + simpl in Hc. repeat (destruct Hc as [<-|Hc]; [reflexivity|]). contradiction.
    + simpl. destruct (Nat.eqb_spec j 33); [lia|reflexivity].
  - reflexivity.
  - lia.
  - vm_compute. reflexivity.
  - vm_compute. discriminate.
  - repeat constructor; eexists; reflexivity.
Defined.

(** ** Exceptions inside the threads *)

Section WorkerFaults.

Variable env : environment.

Lemma filters_succeed_or_raise (l : list frameset) :
  Forall (depth_filter_succeeds env) l \/ Exists (depth_filter_raises env) l.
Proof.
  induction l as [|data l [IH|IH]].
  - left. constructor.
  - destruct (spec_filter_chain env (get_depth_frame data)) as [e|filtered] eqn:Hchain.
    + right. left. exists e. exact Hchain.
    + left. constructor; [exists filtered; exact Hchain|exact IH].
  - right. right. exact IH.
Qed.

Lemma filters_not_both (l : list frameset) :
  Forall (depth_filter_succeeds env) l -> Exists (depth_filter_raises env) l -> False.
Proof.
  intros Hall Hex.
  apply List.Exists_exists in Hex as (data & Hin & e & He).
  rewrite List.Forall_forall in Hall.
  destruct (Hall data Hin) as [filtered Hf]. congruence.
Qed.

Lemma spawned_raises (pi_name : string) (ks : list nat) :
  Exists (depth_filter_raises env) (map (frameset_at env) ks) ->
  Exists (fun t => fst (run_thread env t) <> Val tt) (spawned env pi_name ks).
Proof.
  induction ks as [|k ks IH]; simpl; intros H; inversion H as [? ? Hk|? ? Hrest]; subst.
  - left. destruct Hk as [e He]. rewrite run_thread_depth, He. discriminate.
  - right. right. apply IH. exact Hrest.
Qed.

(** A thread ends normally or with the exception of a filter. *)
Lemma run_thread_result (t : thread) :
  fst (run_thread env t) = Val tt
  \/ exists e, thread_entry t = fn_save_frame_depth_data
            /\ spec_filter_chain env (thread_frame t) = inl e
            /\ fst (run_thread env t) = Throw e.
Proof.
  destruct t as [[] pi_name frm].
  - rewrite run_thread_depth. simpl.
    destruct (spec_filter_chain env frm) as [e|filtered]; [right|left; reflexivity].
    exists e. auto.
  - rewrite run_thread_colour. left. reflexivity.
Qed.

Lemma spawned_depth_frames (pi_name : string) (ks : list nat) (t : thread) :
  In t (spawned env pi_name ks) ->
  thread_entry t = fn_save_frame_depth_data ->
  exists k, In k ks /\ thread_frame t = get_depth_frame (frameset_at env k).
Proof.
  unfold spawned. intros Hin Hentry.
  apply in_flat_map in Hin as (k & Hk & [<-|[<-|[]]]);
    [exists k; auto|discriminate].
Qed.

(** The join loop of any run: it returns, or the process is aborted with
    the report of a thread that raised. *)
Lemma join_all_ends (ts : list thread) (st : process_state) :
  join_all env ts st = (Val tt, st)
  \/ exists t e, In t ts /\ fst (run_thread env t) = Throw e
       /\ join_all env ts st = (Terminate (Some e), st).
Proof.
  apply join_all_cerr. intros t _.
  destruct (run_thread_result t) as [H|(e & _ & _ & H)]; eauto.
Qed.

Lemma main_aborts_when_a_filter_raises (prog arg1 raspi_name : string)
    (rest : list string) :
  reachable env (30 + Z.to_nat (strtol (LONG_MAX env) arg1)) ->
  strtol (LONG_MAX env) arg1 <= INT_MAX ->
  Exists (depth_filter_raises env)
    (captured env (Z.to_nat (strtol (LONG_MAX env) arg1))) ->
  fst (main env (prog :: arg1 :: raspi_name :: rest)) = Aborted /\
  exists data e,
    In data (captured env (Z.to_nat (strtol (LONG_MAX env) arg1))) /\
    spec_filter_chain env (get_depth_frame data) = inl e /\
    cerr (snd (main env (prog :: arg1 :: raspi_name :: rest)))
    = terminate_text env (Some e).
Proof.
  intros Hreach Hmax Hraise. unfold main.
  rewrite (main_body_reaches_join env prog arg1 raspi_name rest Hreach Hmax).
  unfold bind. cbv beta.
  change (threads (completed_state env raspi_name
                     (Z.to_nat (strtol (LONG_MAX env) arg1))))
    with (spawned env raspi_name (seq 30 (Z.to_nat (strtol (LONG_MAX env) arg1)))).
  pose proof (join_all_terminates env _
                (completed_state env raspi_name
                   (Z.to_nat (strtol (LONG_MAX env) arg1)))
                (spawned_raises raspi_name _ Hraise)) as Hend.
  destruct (join_all_ends
              (spawned env raspi_name
                 (seq 30 (Z.to_nat (strtol (LONG_MAX env) arg1))))
              (completed_state env raspi_name
                 (Z.to_nat (strtol (LONG_MAX env) arg1))))
    as [Hjoin|(t & e & Hin & Ht & Hjoin)];
    rewrite Hjoin in Hend |- *; [contradiction Hend; reflexivity|].
  split; [reflexivity|].
  destruct (run_thread_result t) as [Hval|(e' & Hentry & Hchain & Hthrow)];
    [congruence|].
  assert (e' = e) as -> by congruence.
  destruct (spawned_depth_frames _ _ _ Hin Hentry) as (k & Hk & Hframe).
  exists (frameset_at env k), e. split; [|split].
  - unfold captured. apply in_map. exact Hk.
  - rewrite <- Hframe. exact Hchain.
  - reflexivity.
Qed.

End WorkerFaults.

(** X5.  With a reachable device and a frame count [n <= INT_MAX], the
    run ends in one of two ways.  [main] returns 0, with nothing on the
    error stream, exactly when the filter chain raises on none of the [n]
    captured depth frames.  The process is aborted by [std::terminate]
    exactly when the chain raises on at least one of them: the exception
    escapes [save_frame_depth_data], which is the entry function of a
    thread, and what the error stream then holds is the terminate
    handler's report of the exception of one of these frames, not a
    message of [main]. *)
Theorem run_outcome_follows_the_filters
    (env : environment) (prog arg1 raspi_name : string) (rest : list string)
    (n : Z) :
  strtol (LONG_MAX env) arg1 = n ->
  n <= INT_MAX ->
  reachable env (30 + Z.to_nat n) ->
  (fst (main env (prog :: arg1 :: raspi_name :: rest)) = Exit EXIT_SUCCESS <->
   Forall (depth_filter_succeeds env) (captured env (Z.to_nat n))) /\
  (fst (main env (prog :: arg1 :: raspi_name :: rest)) = Aborted <->
   Exists (depth_filter_raises env) (captured env (Z.to_nat n))) /\
  (fst (main env (prog :: arg1 :: raspi_name :: rest)) = Exit EXIT_SUCCESS ->
   cerr (snd (main env (prog :: arg1 :: raspi_name :: rest))) = "") /\
  (fst (main env (prog :: arg1 :: raspi_name :: rest)) = Aborted ->
   exists data e,
     In data (captured env (Z.to_nat n)) /\
     spec_filter_chain env (get_depth_frame data) = inl e /\
     cerr (snd (main env (prog :: arg1 :: raspi_name :: rest)))
     = terminate_text env (Some e)).
Proof.
  intros <- Hmax Hreach.
  assert (Hgood : Forall (depth_filter_succeeds env)
                    (captured env (Z.to_nat (strtol (LONG_MAX env) arg1))) ->
                  main env (prog :: arg1 :: raspi_name :: rest)
                  = (Exit EXIT_SUCCESS,
                     completed_state env raspi_name
                       (Z.to_nat (strtol (LONG_MAX env) arg1)))).
  { intros Hall. apply main_completes; try assumption.
    apply spawned_complete. intros k Hk.
    rewrite List.Forall_forall in Hall. apply Hall.
    unfold captured. apply in_map. exact Hk. }
  pose proof (main_aborts_when_a_filter_raises env prog arg1 raspi_name rest
                Hreach Hmax) as Hbad.
  destruct (filters_succeed_or_raise env
              (captured env (Z.to_nat (strtol (LONG_MAX env) arg1))))
    as [Hall|Hex].
  - rewrite (Hgood Hall). simpl.
    split; [split; auto|]. split; [|split; [reflexivity|discriminate]].
    split; [discriminate|].
    intros Hex. exfalso. exact (filters_not_both env _ Hall Hex).
  - destruct (Hbad Hex) as [Hout Hcerr]. rewrite Hout.
    split; [|split; [split; auto|split; [discriminate|intros _; exact Hcerr]]].
    split; [discriminate|].
    intros Hall. exfalso. exact (filters_not_both env _ Hall Hex).
Qed.

Lemma run_outcome_follows_the_filters_witness :
  fst (main (Sim.strict Sim.odd_frameset) ["capture"; "2"; "pi"]) = Aborted.
Proof.
  apply (run_outcome_follows_the_filters
           (Sim.strict Sim.odd_frameset) "capture" "2" "pi" [] 2).
  - reflexivity.
  - unfold INT_MAX. lia.
  - split; [discriminate|]. split; [intros c Hc|intros k Hk]; reflexivity.
  - right. left. eexists. reflexivity.
Defined.

(** On that device the filters refuse the depth frame at position 31,
    which is not an image; with the lenient filters of [Sim.device] the
    same framesets give a run that returns 0. *)
Example lenient_filters_complete :
  fst (main (Sim.device (fun _ => None) Sim.odd_frameset) ["capture"; "3"; "pi"])
  = Exit EXIT_SUCCESS.
Proof. vm_compute. reflexivity. Qed.

(** ** The loop counter *)



(** ** Files of a run *)

Section FilesOfARun.

Variable env : environment.

Lemma main_paths (argv : list string) :
  map fst (file_writes (run_effects env (snd (main env argv))))
  = map (key_path (nth 2 argv ""))
      (flat_map (thread_keys env) (threads (snd (main env argv)))).
Proof.
  pose proof (main_threads_shape env (nth 2 argv "") argv eq_refl) as Hshape.
  unfold threads_shape in Hshape.
  unfold run_effects. apply run_paths.
  rewrite Hshape. apply spawned_pi_name.
Qed.

Lemma in_key_paths (pi_name : string) (keys : list (artifact_kind * N))
    (k : artifact_kind) (n : N) :
  In (artifact_path pi_name k n) (map (key_path pi_name) keys) <-> In (k, n) keys.
Proof.
  rewrite in_map_iff. split.
  - intros ([k' n'] & Heq & Hin). unfold key_path in Heq. simpl in Heq.
    apply artifact_path_inj in Heq as [-> ->]. exact Hin.
  - intros Hin. exists (k, n). split; [reflexivity|exact Hin].
Qed.

Lemma keys_come_in_pairs (f : thread_function) (n : N) (ts : list thread) :
  In (image_kind f, n) (flat_map (thread_keys env) ts)
  <-> In (metadata_kind f, n) (flat_map (thread_keys env) ts).
Proof.
  induction ts as [|t ts IH]; simpl; [tauto|].
  rewrite !in_app_iff, IH. unfold thread_keys.
  destruct (persisted_frame env t) as [frm|]; simpl; [|tauto].
  destruct f, (thread_entry t); simpl; intuition congruence.
Qed.

Lemma numbers_keys (f : thread_function) (n : N) (ts : list thread) :
  In n (stream_numbers env f ts) ->
  In (image_kind f, n) (flat_map (thread_keys env) ts).
Proof.
  induction ts as [|t ts IH]; [auto|].
  rewrite stream_numbers_cons. cbn [flat_map]. rewrite !in_app_iff.
  intros [Hown|Hrest]; [left|right; auto].
  unfold thread_keys.
  destruct f, (thread_entry t); simpl in Hown; try contradiction;
    destruct (persisted_frame env t) as [frm|]; simpl in Hown; try contradiction;
    destruct Hown as [<-|[]]; simpl; auto.
Qed.

Lemma numbers_NoDup (f : thread_function) (ts : list thread) :
  List.NoDup (flat_map (thread_keys env) ts) ->
  List.NoDup (stream_numbers env f ts).
Proof.
  induction ts as [|t ts IH]; [constructor|].
  rewrite stream_numbers_cons. cbn [flat_map]. intros Hkeys.
  pose proof (IH (NoDup_app_tail _ _ Hkeys)) as Hrest.
  destruct (thread_function_eqb (thread_entry t) f) eqn:Hf; [|exact Hrest].
  unfold thread_keys in Hkeys.
  destruct (persisted_frame env t) as [frm|]; [|exact Hrest].
  simpl. constructor; [|exact Hrest].
  intros Hin. apply numbers_keys in Hin.
  simpl in Hkeys. apply NoDup_cons_iff in Hkeys as [Hfresh _].
  apply Hfresh. right.
  destruct f, (thread_entry t); simpl in Hf; try discriminate; exact Hin.
Qed.

End FilesOfARun.

Lemma store_all_holds (ws : list (string * string)) (fs : gmap string string)
    (p : string) :
  is_Some (store_all ws fs !! p) <-> In p (map fst ws) \/ is_Some (fs !! p).
Proof.
  revert fs. induction ws as [|[q c] ws IH]; intros fs.
  - simpl. tauto.
  - change (store_all ((q, c) :: ws) fs) with (store_all ws (store_file fs (q, c))).
    rewrite IH. unfold store_file. cbn [fst snd map In].
    rewrite lookup_insert_is_Some.
    destruct (decide (q = p)); tauto.
Qed.

(** X7.  In a run that returns 0, and so has joined all its threads, image
    files and metadata files come in pairs: whatever the order in which
    the writes of the threads reach the directory (which starts empty,
    with its four sub-directories), the directory ends up holding
    [depth/<name>_depth_<n>.raw] exactly when it holds
    [depth_metadata/<name>_depth_metadata_<n>.txt], and
    [colour/<name>_colour_<n>.png] exactly when it holds
    [colour_metadata/<name>_colour_metadata_<n>.txt], for every frame
    number [n]. *)
Theorem image_and_metadata_files_are_paired
    (env : environment) (argv : list string) (order : list (string * string))
    (n : N) :
  fst (main env argv) = Exit EXIT_SUCCESS ->
  Permutation order (file_writes (run_effects env (snd (main env argv)))) ->
  (is_Some (store_all order ∅ !! depth_file_name (nth 2 argv "") n)
   <-> is_Some (store_all order ∅ !! depth_metadata_file_name (nth 2 argv "") n)) /\
  (is_Some (store_all order ∅ !! colour_file_name (nth 2 argv "") n)
   <-> is_Some (store_all order ∅ !! colour_metadata_file_name (nth 2 argv "") n)).
Proof.
  intros _ Horder.
  assert (Hin : forall p,
             is_Some (store_all order ∅ !! p)
             <-> In p (map (key_path (nth 2 argv ""))
                         (flat_map (thread_keys env) (threads (snd (main env argv)))))).
  { intros p. rewrite store_all_holds, lookup_empty, <- main_paths.
    split.
    - intros [H|H]; [|destruct (is_Some_None H)].
      apply (Permutation_in _ (Permutation_map fst Horder)). exact H.
    - intros H. left.
      apply (Permutation_in _ (Permutation_sym (Permutation_map fst Horder))).
      exact H. }
  rewrite !Hin. split.
  - rewrite (in_key_paths (nth 2 argv "") _ depth_raw n).
    rewrite (in_key_paths (nth 2 argv "") _ depth_metadata n).
    apply (keys_come_in_pairs env fn_save_frame_depth_data).
  - rewrite (in_key_paths (nth 2 argv "") _ colour_png n).
    rewrite (in_key_paths (nth 2 argv "") _ colour_metadata n).
    apply (keys_come_in_pairs env fn_save_frame_color_data).
Qed.

Lemma image_and_metadata_files_are_paired_witness :
  is_Some (store_all
             (file_writes (run_effects Sim.healthy
                             (snd (main Sim.healthy ["capture"; "2"; "pi"]))))
             ∅ !! depth_file_name (nth 2 ["capture"; "2"; "pi"] "") 31)
  <-> is_Some (store_all
                 (file_writes (run_effects Sim.healthy
                                 (snd (main Sim.healthy ["capture"; "2"; "pi"]))))
                 ∅ !! depth_metadata_file_name (nth 2 ["capture"; "2"; "pi"] "") 31).
Proof.
  exact (proj1 (image_and_metadata_files_are_paired
                  Sim.healthy ["capture"; "2"; "pi"] _ 31
                  eq_refl (Permutation_refl _))).
Defined.

(** X8.  In every run, the paths written are pairwise distinct exactly
    when no frame number is stored twice on the depth stream and none is
    stored twice on the colour stream; a frame number delivered twice on
    one stream therefore always makes two writes go to the same path. *)
Theorem paths_distinct_iff_numbers_distinct
    (env : environment) (argv : list string) :
  List.NoDup (map fst (file_writes (run_effects env (snd (main env argv)))))
  <-> List.NoDup (stream_numbers env fn_save_frame_depth_data
                    (threads (snd (main env argv)))) /\
      List.NoDup (stream_numbers env fn_save_frame_color_data
                    (threads (snd (main env argv)))).
Proof.
  rewrite main_paths. split.
  - intros Hpaths. apply NoDup_map_inv in Hpaths.
    split; apply numbers_NoDup; exact Hpaths.
  - intros [Hdepth Hcolour]. apply key_path_NoDup, keys_NoDup; assumption.
Qed.

(** ** Confirmation lines *)

Section Confirmations.

Variable env : environment.




End Confirmations.







Example confirmations_of_a_run :
  couts (run_effects Sim.healthy (snd (main Sim.healthy ["capture"; "1"; "pi"])))
  = ["Saved depth/pi_depth_30.raw" +:+ endl;
     "Saved colour/pi_colour_130.png" +:+ endl].
Proof. vm_compute. reflexivity. Qed.

(** ** The raw depth file *)

Lemma substring_0_length (n : nat) (s : string) :
  String.length (substring 0 n s) = Nat.min n (String.length s).
Proof.
  revert s. induction n as [|n IH]; intros [|c s]; simpl; auto.
Qed.

Lemma substring_0_prefix (n : nat) (s : string) :
  String.prefix (substring 0 n s) s = true.
Proof.
  revert s. induction n as [|n IH]; intros [|c s]; simpl; auto.
  destruct (ascii_dec c c); [apply IH|congruence].
Qed.

Lemma int_wrap_in_range (z : Z) : - INT_MAX - 1 <= z <= INT_MAX -> int_wrap z = z.
Proof.
  unfold int_wrap, INT_MAX. intros Hz.
  rewrite Z.mod_small; lia.
Qed.

(** X10.  When the filtered depth frame is an image, the two [int]
    products [width * height] and [width * height * bytes_per_pixel] of
    line 68 stay within the range of [int], the second is not negative,
    and the buffer holds at least that many bytes,
    [save_frame_depth_data] writes exactly two files, the raw file and
    then the metadata file, and the raw file holds exactly
    [width * height * bytes_per_pixel] bytes, which are the first bytes of
    the buffer: no header, nothing added, nothing reordered. *)
Theorem raw_file_is_the_start_of_the_buffer
    (env : environment) (pi_name : string) (frm filtered : frame)
    (image : video_frame) :
  spec_filter_chain env frm = inr filtered ->
  as_video_frame filtered = Some image ->
  - INT_MAX - 1 <= get_width image * get_height image <= INT_MAX ->
  0 <= get_width image * get_height image * get_bytes_per_pixel image <= INT_MAX ->
  get_width image * get_height image * get_bytes_per_pixel image
  <= Z.of_nat (String.length (get_data image)) ->
  exists content metadata,
    file_writes (snd (save_frame_depth_data env pi_name frm []))
    = [(depth_file_name pi_name (get_frame_number filtered), content);
       (depth_metadata_file_name pi_name (get_frame_number filtered), metadata)] /\
    Z.of_nat (String.length content)
    = get_width image * get_height image * get_bytes_per_pixel image /\
    String.prefix content (get_data image) = true.
Proof.
  intros Hchain Himage Hwh Hsize Hbuffer.
  exists (raw_pixels image), (spec_metadata_text env filtered).
  rewrite save_frame_depth_data_spec, Hchain.
  unfold spec_depth_effects. rewrite Himage.
  split; [reflexivity|]. unfold raw_pixels, int_mul. split.
  - rewrite (int_wrap_in_range _ Hwh), int_wrap_in_range by lia.
    rewrite substring_0_length. lia.
  - apply substring_0_prefix.
Qed.

Lemma raw_file_is_the_start_of_the_buffer_witness :
  exists content metadata,
    file_writes (snd (save_frame_depth_data Sim.healthy "pi"
                        (Sim.video RS2_STREAM_DEPTH 7 "zz") []))
    = [(depth_file_name "pi" 7, content);
       (depth_metadata_file_name "pi" 7, metadata)] /\
    Z.of_nat (String.length content) = 6 * 1 * 1 /\
    String.prefix content "zzD>S<" = true.
Proof.
  apply (raw_file_is_the_start_of_the_buffer Sim.healthy "pi"
           (Sim.video RS2_STREAM_DEPTH 7 "zz")
           (Sim.video RS2_STREAM_DEPTH 7 "zzD>S<")
           (Sim.image_of "zzD>S<")).
  - reflexivity.
  - reflexivity.
  - vm_compute. split; discriminate.
  - vm_compute. split; discriminate.
  - vm_compute. discriminate.
Defined.

(** Outside that range the count is not the product: for an image of
    65536 by 65536 one-byte pixels the [int] product overflows, and with
    the two's-complement result nothing at all is written. *)
Example oversized_image_writes_nothing :
  raw_pixels {| get_width := 65536; get_height := 65536;
                get_bytes_per_pixel := 1; get_stride_in_bytes := 65536;
                get_data := "zz" |} = "".
Proof. reflexivity. Qed.

(** ** The order of the SDK calls *)

Section CallOrder.

Variable env : environment.

Lemma firstn_snoc {A} (l : list A) (j : nat) (a : A) :
  nth_error l j = Some a -> firstn (Datatypes.S j) l = firstn j l ++ [a].
Proof.
  revert j. induction l as [|b l IH]; intros [|j] H; simpl in *; try discriminate.
  - injection H as ->. reflexivity.
  - rewrite (IH j H). reflexivity.
Qed.

Lemma Forall_removelast {A} (P : A -> Prop) (l : list A) :
  Forall P l -> Forall P (removelast l).
Proof.
  induction 1 as [|a l Ha Hl IH]; simpl; [constructor|].
  destruct l; [constructor|]. constructor; [exact Ha|exact IH].
Qed.

Lemma setting_up_in_order (j : nat) (st : process_state) :
  setting_up env j st -> trace_in_order env st.
Proof.
  intros (Htrace & Hfd & Hok). exists j, 0%nat.
  rewrite Hfd. split; [rewrite Htrace, app_nil_r; reflexivity|].
  split; [lia|]. split; [apply Forall_removelast, Hok|].
  left. split; [reflexivity|constructor].
Qed.

Lemma waiting_in_order (st : process_state) :
  waiting env st -> trace_in_order env st.
Proof.
  intros [Htrace Hok]. exists (length setup_calls), (frames_delivered st).
  split; [exact Htrace|]. split; [lia|].
  split; [apply Forall_removelast, Hok|].
  left. split; [reflexivity|].
  rewrite Htrace in Hok. apply List.Forall_app in Hok. apply Hok.
Qed.

(** A call that raises is the last call of the trace. *)
Lemma raised_in_order (c : sdk_call) (st : process_state) (j w : nat) :
  sdk_trace st ++ [c] = firstn j setup_calls ++ map call_wait_for_frames (seq 0 w) ->
  (w <> 0%nat -> (length setup_calls <= j)%nat) ->
  Forall (returned env) (sdk_trace st) ->
  (frames_delivered st = w /\
   Forall (returned env) (map call_wait_for_frames (seq 0 w))) \/
  (w = Datatypes.S (frames_delivered st) /\
   ~ returned env (call_wait_for_frames (frames_delivered st))) ->
  trace_in_order env (log_call c st).
Proof.
  intros Htrace Hj Hok Hfd. exists j, w.
  split; [exact Htrace|]. split; [exact Hj|]. split; [|exact Hfd].
  change (sdk_trace (log_call c st)) with (sdk_trace st ++ [c]).
  rewrite removelast_last. exact Hok.
Qed.

Lemma hoare_set_up_call (j : nat) (c : sdk_call) :
  nth_error setup_calls j = Some c ->
  hoare (setting_up env j) (sdk env c)
    (fun _ => setting_up env (Datatypes.S j)) (trace_in_order env).
Proof.
  intros Hnth st (Htrace & Hfd & Hok).
  assert (Hnext : sdk_trace st ++ [c] = firstn (Datatypes.S j) setup_calls).
  { rewrite Htrace. symmetry. apply firstn_snoc, Hnth. }
  unfold sdk. destruct (sdk_fault env c) as [e|] eqn:Hc.
  - apply (raised_in_order c st (Datatypes.S j) 0); [|lia|exact Hok|].
    + rewrite Hnext, app_nil_r. reflexivity.
    + left. split; [exact Hfd|constructor].
  - split; [exact Hnext|]. split; [exact Hfd|].
    change (Forall (returned env) (sdk_trace st ++ [c])).
    apply List.Forall_app. split; [exact Hok|repeat constructor; exact Hc].
Qed.

Lemma hoare_argv_read_in_order (argv : list string) (index : nat) :
  hoare (waiting env) (argv_read argv index) (fun _ => waiting env)
    (trace_in_order env).
Proof.
  intros st H. unfold argv_read.
  destruct (nth_error argv index); [exact H|apply waiting_in_order, H].
Qed.

Lemma hoare_std_string_in_order (argv : list string) (index : nat) :
  hoare (waiting env) (std_string_from_argv env argv index) (fun _ => waiting env)
    (trace_in_order env).
Proof.
  intros st H. unfold std_string_from_argv.
  destruct (nth_error argv index); [exact H|].
  destruct (index =? length argv)%nat; apply waiting_in_order, H.
Qed.

Lemma wait_keeps_order (st : process_state) :
  waiting env st ->
  sdk_trace st ++ [call_wait_for_frames (frames_delivered st)]
  = setup_calls
    ++ map call_wait_for_frames (seq 0 (Datatypes.S (frames_delivered st))).
Proof.
  intros [Htrace _]. rewrite Htrace, seq_S, map_app, List.app_assoc. reflexivity.
Qed.

Lemma hoare_wait_in_order :
  hoare (waiting env) (wait_for_frames env) (fun _ => waiting env)
    (trace_in_order env).
Proof.
  intros st Hst. pose proof (wait_keeps_order st Hst) as Hnext.
  destruct Hst as [Htrace Hok].
  unfold wait_for_frames, bind, sdk.
  destruct (sdk_fault env _) as [e|] eqn:Hc; simpl.
  - apply (raised_in_order _ st (length setup_calls)
             (Datatypes.S (frames_delivered st))); [exact Hnext|lia|exact Hok|].
    right. split; [reflexivity|]. unfold returned. rewrite Hc. discriminate.
  - split; simpl; [exact Hnext|].
    apply List.Forall_app. split; [exact Hok|repeat constructor; exact Hc].
Qed.

Lemma hoare_emplace_back_in_order (f : thread_function) (pi_name : string)
    (frm : frame) :
  hoare (waiting env) (emplace_back f pi_name frm) (fun _ => waiting env)
    (trace_in_order env).
Proof. intros st H. exact H. Qed.

Lemma hoare_loop_in_order (body : M process_state unit) (fuel : nat) (bound : Z) :
  fuel = Z.to_nat (bound - 0) ->
  hoare (waiting env) body (fun _ => waiting env) (trace_in_order env) ->
  hoare (waiting env) (for_int fuel 0 bound body) (fun _ => waiting env)
    (trace_in_order env).
Proof.
  intros Hfuel Hbody.
  apply (hoare_for_int (fun _ => waiting env) (trace_in_order env) body bound
           (fun _ _ => Hbody) (fun _ => waiting_in_order) fuel 0 Hfuel).
Qed.

Lemma main_body_in_order (argv : list string) :
  hoare (setting_up env 0) (main_body env argv) (fun _ => trace_in_order env)
    (trace_in_order env).
Proof.
  unfold main_body.
  eapply hoare_bind; [apply (hoare_set_up_call 0); reflexivity|intros []; cbv beta].
  eapply hoare_bind; [apply (hoare_set_up_call 1); reflexivity|intros []; cbv beta].
  destruct (device_count env =? 0)%N.
  { intros st H. simpl. apply (setting_up_in_order 2). exact H. }
  eapply hoare_bind; [apply (hoare_set_up_call 2); reflexivity|intros []; cbv beta].
  unfold enable_stream.
  eapply hoare_bind.
  { eapply hoare_bind; [apply (hoare_set_up_call 3); reflexivity|intros []; cbv beta].
    apply (hoare_ret _ _ (fun cfg st => setting_up env 4 st /\ cfg = [depth_request])).
    intros st H. split; [exact H|reflexivity]. }
  intros cfg1; cbv beta. apply hoare_assume. intros ->.
  eapply hoare_bind.
  { eapply hoare_bind; [apply (hoare_set_up_call 4); reflexivity|intros []; cbv beta].
    apply (hoare_ret _ _ (fun cfg st => setting_up env 5 st
                                        /\ cfg = [depth_request; color_request])).
    intros st H. split; [exact H|reflexivity]. }
  intros cfg2; cbv beta. apply hoare_assume. intros ->.
  eapply hoare_bind; [apply (hoare_set_up_call 5); reflexivity|intros []; cbv beta].
  eapply hoare_bind; [apply (hoare_set_up_call 6); reflexivity|intros []; cbv beta].
  apply (hoare_weaken _ (waiting env) _ _ (fun _ => trace_in_order env) _
           (trace_in_order env));
    [|intros st (Htrace & Hfd & Hok); split; [rewrite Htrace, Hfd; reflexivity|exact Hok]
     |auto|auto].
  unfold main_after_start.
  eapply hoare_bind; [apply hoare_argv_read_in_order|intros arg1; cbv beta].
  eapply hoare_bind; [apply hoare_std_string_in_order|].
  intros raspi_name; cbv beta.
  eapply hoare_bind.
  { apply hoare_loop_in_order; [reflexivity|].
    eapply hoare_bind; [apply hoare_wait_in_order|intros data; cbv beta].
    apply hoare_ret. auto. }
  intros []; cbv beta.
  eapply hoare_bind.
  { apply hoare_loop_in_order; [rewrite Z.sub_0_r; reflexivity|].
    unfold capture_one.
    eapply hoare_bind; [apply hoare_wait_in_order|intros data; cbv beta].
    eapply hoare_bind; [apply hoare_emplace_back_in_order|intros []; cbv beta].
    apply hoare_emplace_back_in_order. }
  intros []; cbv beta.
  eapply hoare_bind.
  { eapply hoare_weaken; [apply (hoare_join env (waiting env))| | |]; cbv beta.
    - auto.
    - intros a st H. exact H.
    - apply waiting_in_order. }
  intros []; cbv beta.
  apply hoare_ret. apply waiting_in_order.
Qed.

End CallOrder.

(** X11.  In every run, however it ends, the SDK calls are made in the
    order of the source and each set-up call at most once: context,
    query, config, the two stream requests, pipeline, start, then waits
    numbered 0, 1, 2, ...; no wait is made unless all seven set-up calls
    have been made; nothing is called after a call that raised, that is,
    every call but the last one returned; and the number of framesets
    received is the number of waits when these all returned, and one less
    when the last wait raised. *)
Theorem sdk_calls_follow_the_source_order (env : environment) (argv : list string) :
  exists j w,
    sdk_trace (snd (main env argv))
    = firstn j setup_calls ++ map call_wait_for_frames (seq 0 w) /\
    (w <> 0%nat -> (length setup_calls <= j)%nat) /\
    Forall (fun c => sdk_fault env c = None)
      (removelast (sdk_trace (snd (main env argv)))) /\
    ((frames_delivered (snd (main env argv)) = w /\
      Forall (fun c => sdk_fault env c = None)
        (map call_wait_for_frames (seq 0 w))) \/
     (w = Datatypes.S (frames_delivered (snd (main env argv))) /\
      sdk_fault env (call_wait_for_frames (frames_delivered (snd (main env argv))))
      <> None)).
Proof.
  change (trace_in_order env (snd (main env argv))).
  pose proof (main_body_in_order env argv initial_state
                (conj eq_refl (conj eq_refl (List.Forall_nil _)))) as H.
  unfold main.
  destruct (main_body env argv initial_state) as [[code| e | u | cause] st]; simpl;
    try exact H.
  destruct (threads st); simpl; exact H.
Qed.

(** A run whose 33rd wait raises: seven set-up calls and 33 waits were
    made, 32 framesets were received. *)
Example calls_of_a_run_cut_short :
  let run := main (Sim.device (Sim.timeout_at 32) Sim.numbered_frameset)
               ["capture"; "5"; "pi"] in
  sdk_trace (snd run) = setup_calls ++ map call_wait_for_frames (seq 0 33) /\
  frames_delivered (snd run) = 32%nat.
Proof. vm_compute. split; reflexivity. Qed.

(** ** A frame without metadata *)

Lemma filter_none {A} (f : A -> bool) (l : list A) :
  (forall a, In a l -> f a = false) -> List.filter f l = [].
Proof.
  induction l as [|a l IH]; intros H; simpl; [reflexivity|].
  rewrite (H a (or_introl eq_refl)). apply IH. intros b Hb. apply H. right. exact Hb.
Qed.

(** X12.  For a frame that supports none of the metadata attributes (as
    on a host where the camera's per-frame metadata is not available),
    [metadata_to_text] still returns normally and writes the file; the
    file then consists of the two header lines only. *)
Theorem metadata_file_without_attributes
    (env : environment) (frm : frame) (file_name : string) (log : list effect) :
  (forall i, (i < RS2_FRAME_METADATA_COUNT env)%nat -> frame_metadata frm i = None) ->
  metadata_to_text env frm file_name log
  = (Val tt,
     log ++ [FileWrite file_name
               ("Stream," +:+ rs2_stream_to_string env (stream_type frm) +:+ endl
                +:+ "Metadata Attribute,Value" +:+ endl)]).
Proof.
  intros Hnone. rewrite metadata_to_text_spec.
  unfold spec_metadata_text, spec_metadata_lines.
  rewrite filter_none; [reflexivity|].
  intros i Hi. apply in_seq in Hi. unfold supports_frame_metadata.
  rewrite Hnone by lia. reflexivity.
Qed.

Lemma metadata_file_without_attributes_witness :
  metadata_to_text Sim.healthy
    {| get_frame_number := 3; stream_type := RS2_STREAM_DEPTH;
       as_video_frame := Some (Sim.image_of "zz");
       frame_metadata := fun _ => None |}
    "depth_metadata/pi_depth_metadata_3.txt" []
  = (Val tt,
     [] ++ [FileWrite "depth_metadata/pi_depth_metadata_3.txt"
              ("Stream," +:+ "Depth" +:+ endl
               +:+ "Metadata Attribute,Value" +:+ endl)]).
Proof.
  apply (metadata_file_without_attributes Sim.healthy
           {| get_frame_number := 3; stream_type := RS2_STREAM_DEPTH;
              as_video_frame := Some (Sim.image_of "zz");
              frame_metadata := fun _ => None |}
           "depth_metadata/pi_depth_metadata_3.txt" []).
  intros i Hi. reflexivity.
Defined.

(** ** Exit codes and diagnostics *)

Section Diagnostics.

Variable env : environment.

Lemma hoare_sdk_quiet (c : sdk_call) : hoare quiet (sdk env c) (fun _ => quiet) quiet.
Proof. apply hoare_sdk. intros st H. exact H. Qed.

Lemma hoare_wait_quiet :
  hoare quiet (wait_for_frames env) (fun _ => quiet) quiet.
Proof.
  intros st H. unfold wait_for_frames, bind, sdk.
  destruct (sdk_fault env _); exact H.
Qed.

Lemma hoare_loop_quiet (body : M process_state unit) (fuel : nat) (bound : Z) :
  fuel = Z.to_nat (bound - 0) ->
  hoare quiet body (fun _ => quiet) quiet ->
  hoare quiet (for_int fuel 0 bound body) (fun _ => quiet) quiet.
Proof.
  intros Hfuel Hbody.
  apply (hoare_for_int (fun _ => quiet) quiet body bound
           (fun _ _ => Hbody) (fun _ _ H => H) fuel 0 Hfuel).
Qed.

Lemma hoare_argv_read_quiet (argv : list string) (index : nat) :
  hoare quiet (argv_read argv index) (fun _ => quiet) quiet.
Proof.
  intros st H. unfold argv_read. destruct (nth_error argv index); exact H.
Qed.

Lemma hoare_std_string_quiet (argv : list string) (index : nat) :
  hoare quiet (std_string_from_argv env argv index) (fun _ => quiet) quiet.
Proof.
  intros st H. unfold std_string_from_argv.
  destruct (nth_error argv index); [exact H|].
  destruct (index =? length argv)%nat; exact H.
Qed.

(** The try block prints only in the branch that returns [EXIT_FAILURE]. *)
Lemma main_body_diagnostics (argv : list string) :
  hoare quiet (main_body env argv)
    (fun code st =>
       (code = EXIT_SUCCESS /\ cerr st = "") \/
       (code = EXIT_FAILURE /\ cerr st = "No RealSense devices found!" +:+ endl))
    quiet.
Proof.
  unfold main_body.
  eapply hoare_bind; [apply hoare_sdk_quiet|intros []; cbv beta].
  eapply hoare_bind; [apply hoare_sdk_quiet|intros []; cbv beta].
  destruct (device_count env =? 0)%N.
  { intros st H. simpl. right. split; [reflexivity|].
    unfold quiet in H. rewrite H. reflexivity. }
  eapply hoare_bind; [apply hoare_sdk_quiet|intros []; cbv beta].
  unfold enable_stream.
  eapply hoare_bind.
  { eapply hoare_bind; [apply hoare_sdk_quiet|intros []; cbv beta].
    apply (hoare_ret _ _ (fun _ => quiet)). auto. }
  intros cfg1. eapply hoare_bind.
  { eapply hoare_bind; [apply hoare_sdk_quiet|intros []; cbv beta].
    apply (hoare_ret _ _ (fun _ => quiet)). auto. }
  intros cfg2.
  eapply hoare_bind; [apply hoare_sdk_quiet|intros []; cbv beta].
  eapply hoare_bind; [apply hoare_sdk_quiet|intros []; cbv beta].
  unfold main_after_start.
  eapply hoare_bind; [apply hoare_argv_read_quiet|intros arg1; cbv beta].
  eapply hoare_bind; [apply hoare_std_string_quiet|intros raspi_name; cbv beta].
  eapply hoare_bind.
  { apply hoare_loop_quiet; [reflexivity|].
    eapply hoare_bind; [apply hoare_wait_quiet|intros data; cbv beta].
    apply hoare_ret. auto. }
  intros []; cbv beta.
  eapply hoare_bind.
  { apply hoare_loop_quiet; [rewrite Z.sub_0_r; reflexivity|].
    unfold capture_one.
    eapply hoare_bind; [apply hoare_wait_quiet|intros data; cbv beta].
    intros st H. exact H. }
  intros []; cbv beta.
  eapply hoare_bind; [apply (hoare_join env quiet)|intros []; cbv beta].
  apply hoare_ret. intros st H. left. split; [reflexivity|exact H].
Qed.

Lemma handler_message_not_empty (e : exn) : handler_message e <> "".
Proof.
  destruct e as [f a w|w]; simpl; [discriminate|].
  intros H. apply (f_equal String.length) in H.
  rewrite length_append in H. simpl in H. lia.
Qed.

End Diagnostics.

(** X13.  What is on the error stream when the process ends tells how it
    ended.  [main] returns only 0 or 1: 0 only with nothing printed, 1
    only after printing a diagnostic, which is either the no-device
    message or the message of one of the two handlers.  When the process
    is aborted by [std::terminate], none of these diagnostics has been
    printed: the error stream holds the report of the terminate handler
    and nothing else.  When the run reaches an operation whose behaviour
    is undefined, nothing has been printed up to that operation. *)
Theorem exit_code_matches_diagnostics (env : environment) (argv : list string) :
  match fst (main env argv) with
  | Exit code =>
      (code = EXIT_SUCCESS /\ cerr (snd (main env argv)) = "") \/
      (code = EXIT_FAILURE /\ cerr (snd (main env argv)) <> "" /\
       (cerr (snd (main env argv)) = "No RealSense devices found!" +:+ endl \/
        exists e, cerr (snd (main env argv)) = handler_message e))
  | Aborted =>
      exists cause, cerr (snd (main env argv)) = terminate_text env cause
  | Undefined _ => cerr (snd (main env argv)) = ""
  end.
Proof.
  pose proof (main_body_diagnostics env argv initial_state eq_refl) as H.
  unfold main.
  destruct (main_body env argv initial_state) as [[code| e | u | cause] st]; simpl.
  - destruct H as [[-> Hcerr]|[-> Hcerr]]; [left; auto|right].
    split; [reflexivity|]. rewrite Hcerr. split; [discriminate|left; reflexivity].
  - unfold quiet in H. destruct (threads st); simpl; rewrite H.
    + right. split; [reflexivity|]. split; [apply handler_message_not_empty|].
      right. exists e. reflexivity.
    + exists None. reflexivity.
  - exact H.
  - unfold quiet in H. rewrite H. exists cause. reflexivity.
Qed.

(** The run with one argument ends on the handler for [std::exception]. *)
Example one_argument_diagnostic :
  cerr (snd (main Sim.healthy ["capture"; "5"]))
  = handler_message (std_exception Sim.construction_from_null).
Proof. reflexivity. Qed.
